(** * Recurring contracts: consumption generation and invoicing

    A shallow embedding of [contract.py] (trytond module [contract]):
    the recurrence rule of a contract (dateutil's [rrule] as the module
    builds it), the consumption generator [Contract.get_consumptions] and
    [Contract.consume], the start-date validation, and the invoicing of
    consumptions ([ContractConsumption.get_invoice_line] and
    [ContractConsumption.invoice]).

    Dates are Python [date] ordinals ([date.toordinal()], 0001-01-01 is 1);
    every [datetime] the module builds is [todatetime(d)], i.e. midnight, so
    it is represented by the ordinal of its date as well.  Exceptions are the
    constructors of [error], threaded through an error monad. *)

From Stdlib Require Import ZArith List Bool Lia QArith String.
From Stdlib Require Import Sorting.Permutation Sorting.Sorted.
Import ListNotations.
Open Scope Z_scope.

(** ** Exceptions and the error monad *)

Inductive error :=
| TypeError
| AttributeError
| OverflowError
| ValueError
| ZeroDivisionError
| UserError (name : string).

Inductive result (A : Type) : Type :=
| Ok (a : A)
| Err (e : error).
Arguments Ok {A} a.
Arguments Err {A} e.

Definition bind {A B : Type} (m : result A) (k : A -> result B) : result B :=
  match m with
  | Ok a => k a
  | Err e => Err e
  end.

Notation "x <- m ;; k" := (bind m (fun x => k))
  (at level 61, m at next level, right associativity).

Fixpoint mapM {A B : Type} (f : A -> result B) (l : list A) : result (list B) :=
  match l with
  | [] => Ok []
  | x :: l' => y <- f x ;; ys <- mapM f l' ;; Ok (y :: ys)
  end.

(** ** Python's proleptic Gregorian calendar ([datetime] module) *)

Definition is_leap (y : Z) : bool :=
  (y mod 4 =? 0) && (negb (y mod 100 =? 0) || (y mod 400 =? 0)).

Definition days_in_month (y m : Z) : Z :=
  if m =? 2 then (if is_leap y then 29 else 28)
  else if (m =? 4) || (m =? 6) || (m =? 9) || (m =? 11) then 30
  else 31.

(** [_DAYS_BEFORE_MONTH] of the [datetime] module, for a non-leap year. *)
Definition days_before_month_table (m : Z) : Z :=
  nth (Z.to_nat m) [0; 0; 31; 59; 90; 120; 151; 181; 212; 243; 273; 304; 334] 0.

Definition days_before_year (y : Z) : Z :=
  let y1 := y - 1 in y1 * 365 + y1 / 4 - y1 / 100 + y1 / 400.

Definition days_before_month (y m : Z) : Z :=
  days_before_month_table m + (if (2 <? m) && is_leap y then 1 else 0).

(** [_ymd2ord]: the ordinal of [date(y, m, d)]. *)
Definition ymd2ord (y m d : Z) : Z :=
  days_before_year y + days_before_month y m + d.

(** [_ord2ymd]: the inverse, by 400-, 100-, 4- and 1-year cycles. *)
Definition ord2ymd (n0 : Z) : Z * Z * Z :=
  let n := n0 - 1 in
  let n400 := n / 146097 in let n := n mod 146097 in
  let year := n400 * 400 + 1 in
  let n100 := n / 36524 in let n := n mod 36524 in
  let n4 := n / 1461 in let n := n mod 1461 in
  let n1 := n / 365 in let n := n mod 365 in
  let year := year + n100 * 100 + n4 * 4 + n1 in
  if (n1 =? 4) || (n100 =? 4) then (year - 1, 12, 31)
  else
    let leapyear := (n1 =? 3) && (negb (n4 =? 24) || (n100 =? 3)) in
    let month := Z.shiftr (n + 50) 5 in
    let preceding := days_before_month_table month
                     + (if (2 <? month) && leapyear then 1 else 0) in
    let '(month, preceding) :=
      if n <? preceding then
        (month - 1,
         preceding - (if (month - 1 =? 2) && leapyear then 29
                      else days_in_month 2001 (month - 1)))
      else (month, preceding) in
    (year, month, n - preceding + 1).

(** [date.max] is 9999-12-31. *)
Definition MAXORDINAL : Z := 3652059.
Definition MAXYEAR : Z := 9999.

(** [d + timedelta(days=n)] (also [d + relativedelta(days=n)]): raises
    [OverflowError] outside [date.min .. date.max]. *)
Definition add_days (d n : Z) : result Z :=
  let r := d + n in
  if (1 <=? r) && (r <=? MAXORDINAL) then Ok r else Err OverflowError.

(** [todatetime(date)] is midnight of [date]: same ordinal. *)
Definition todatetime (d : Z) : Z := d.

(** ** dateutil's [rrule], restricted to what the module builds

    [rrule(freq, dtstart=..., interval=...)] with no [by*] argument: dateutil
    then takes [byweekday] (weekly), [bymonthday] (monthly, yearly) and
    [bymonth] (yearly) from [dtstart], so with a positive interval the k-th
    candidate is [dtstart] shifted by [k * interval] units; a monthly or
    yearly candidate whose month lacks the day of [dtstart] is skipped, and
    the iteration stops once it passes year [MAXYEAR] (weekly: once the
    Monday of the next week does).  Candidates before [dtstart] are never
    emitted. *)

(** [date.weekday()]: Monday is 0, and ordinal 1 (0001-01-01) is a Monday. *)
Definition weekday (n : Z) : Z := (n + 6) mod 7.

Inductive frequency := DAILY | WEEKLY | MONTHLY | YEARLY.

Record rrule := mk_rrule {
  _freq : frequency;
  _interval : Z;
  _dtstart : Z
}.

(** A candidate of the iteration: an occurrence, a date the filters drop,
    the end of the iteration, or a step that raises [ValueError]. *)
Inductive candidate := Occ (o : Z) | Skip | Stop | Fail.

Definition month_step (r : rrule) : Z :=
  match _freq r with YEARLY => 12 * _interval r | _ => _interval r end.

Definition day_step (r : rrule) : Z :=
  match _freq r with WEEKLY => 7 * _interval r | _ => _interval r end.

Definition month_index (n : Z) : Z :=
  let '(y, m, _) := ord2ymd n in y * 12 + (m - 1).

(** The month [mdayset] reads for the month counter [mk]:
    [mrange[mk-1:mk+1]] on the 13 month starts, which unpacks into two
    values only for these counters ([ValueError] otherwise). *)
Definition month_slice (mk : Z) : option Z :=
  if (1 <=? mk) && (mk <=? 12) then Some mk
  else if (-12 <=? mk) && (mk <=? -2) then Some (mk + 13)
  else None.

(** The k-th candidate of the iteration.

    A negative interval walks backwards from [dtstart], and every step
    after the first is dropped as before [dtstart] until one raises: the
    day counter of a daily or weekly rule falls below 1
    ([date(year, month, day)]), the year of a yearly rule falls below 1
    ([date(year, 1, 1)]), and the month counter of a monthly rule, which
    never wraps downwards, leaves the months [month_slice] reads, in the
    year of [dtstart]; a month it reads there after [dtstart] is emitted.

    With a positive interval a weekly candidate past [date.max] whose week
    starts on or before it is built by [date.fromordinal]: [ValueError]. *)
Definition rrule_candidate (r : rrule) (k : Z) : candidate :=
  let '(y0, m0, d0) := ord2ymd (_dtstart r) in
  if (_interval r <? 0) && (0 <? k) then
    match _freq r with
    | DAILY => if 1 <=? d0 + k * _interval r then Skip else Fail
    | WEEKLY =>
        if 1 <=? d0 - weekday (_dtstart r) + 7 * k * _interval r then Skip else Fail
    | MONTHLY =>
        match month_slice (m0 + k * _interval r) with
        | None => Fail
        | Some m =>
            if (d0 <=? days_in_month y0 m) && (_dtstart r <=? ymd2ord y0 m d0)
            then Occ (ymd2ord y0 m d0) else Skip
        end
    | YEARLY => if 1 <=? y0 + k * _interval r then Skip else Fail
    end
  else
    match _freq r with
    | DAILY =>
        let o := _dtstart r + k * day_step r in
        if MAXORDINAL <? o then Stop else Occ o
    | WEEKLY =>
        let o := _dtstart r + k * day_step r in
        if MAXORDINAL <? o - weekday o then Stop
        else if MAXORDINAL <? o then Fail
        else Occ o
    | MONTHLY | YEARLY =>
        let mi := y0 * 12 + (m0 - 1) + k * month_step r in
        let y := mi / 12 in
        let m := mi mod 12 + 1 in
        if MAXYEAR <? y then Stop
        else if d0 <=? days_in_month y m then Occ (ymd2ord y m d0)
        else Skip
    end.

(** An index by which the iteration has reached [upto] (positive
    interval) or raised (negative interval: within [y0] steps for a yearly
    rule, 31 for the others). *)
Definition index_bound (r : rrule) (upto : Z) : Z :=
  if _interval r <? 0 then MAXYEAR + 32 else
  match _freq r with
  | DAILY | WEEKLY => (upto - _dtstart r) / day_step r + 1
  | MONTHLY | YEARLY => (month_index upto - month_index (_dtstart r)) / month_step r + 1
  end.

(** The generator of the rule, walked up to its first occurrence at or
    after [upto], where [between] stops reading it. *)
Fixpoint candidates_from (r : rrule) (upto k : Z) (fuel : nat) : result (list Z) :=
  match fuel with
  | O => Ok []
  | S f =>
      match rrule_candidate r k with
      | Stop => Ok []
      | Fail => Err ValueError
      | Skip => candidates_from r upto (k + 1) f
      | Occ o =>
          if upto <=? o then Ok [o]
          else rest <- candidates_from r upto (k + 1) f ;; Ok (o :: rest)
      end
  end.

Definition occurrences (r : rrule) (upto : Z) : result (list Z) :=
  candidates_from r upto 0 (Z.to_nat (index_bound r upto + 1)).

(** [rrule.between(after, before, inc=False)], as dateutil writes it. *)
Fixpoint between_loop (after before : Z) (started : bool) (l : list Z) : list Z :=
  match l with
  | [] => []
  | i :: l' =>
      if before <=? i then []
      else if started then i :: between_loop after before true l'
      else if after <? i then i :: between_loop after before true l'
      else between_loop after before false l'
  end.

Definition between (r : rrule) (after before : Z) : result (list Z) :=
  l <- occurrences r before ;; Ok (between_loop after before false l).

(** [rrule.after(dt, inc=False)]: the first occurrence strictly after [dt],
    [None] when the iteration ends first, [ValueError] when it raises
    first.  Past [index_bound r dt] a valid candidate comes within 4800
    steps (the calendar repeats every 400 years, and candidate 0 is
    [dtstart] itself), so the search is complete. *)
Fixpoint after_from (r : rrule) (dt k : Z) (fuel : nat) : result (option Z) :=
  match fuel with
  | O => Ok None
  | S f =>
      match rrule_candidate r k with
      | Stop => Ok None
      | Fail => Err ValueError
      | Skip => after_from r dt (k + 1) f
      | Occ o => if dt <? o then Ok (Some o) else after_from r dt (k + 1) f
      end
  end.

Definition rrule_after (r : rrule) (dt : Z) : result (option Z) :=
  after_from r dt 0 (Z.to_nat (index_bound r dt + 1) + 4802).

(** ** Records *)

Inductive contract_state := Draft | Validated | Cancel.

Module Contract.
Record t := mk {
  id : nat;
  company : nat;
  currency : nat;
  party : nat;
  reference : option string;
  start_date : Z;
  end_date : option Z;
  start_period_date : Z;
  first_invoice_date : option Z;
  lines : list nat;               (** ids of its [contract.line] records *)
  state : contract_state;
  freq : option frequency;        (** [RRuleMixin.freq]; [None] is unset *)
  interval : option Z             (** [RRuleMixin.interval] *)
}.
End Contract.

Module Consumption.
Record t := mk {
  id : nat;                       (** 0 while the record is not saved *)
  contract_line : nat;
  invoice_line : option nat;
  init_period_date : Z;
  end_period_date : Z;
  start_date : Z;
  end_date : Z;
  invoice_date : Z
}.
End Consumption.

(** ** [RRuleMixin.rrule_values] / [Contract.rrule_values] / [rrule]

    [freq] and [interval] are passed only when truthy; [dtstart] is
    [todatetime(start_period_date)].  Without [freq], calling [rrule] with
    [values] as keyword arguments misses its required positional argument:
    [TypeError]. *)
Definition rrule_of (c : Contract.t) : result rrule :=
  let interval :=
    match Contract.interval c with
    | Some i => if i =? 0 then 1 else i
    | None => 1
    end in
  match Contract.freq c with
  | None => Err TypeError
  | Some f => Ok (mk_rrule f interval (todatetime (Contract.start_period_date c)))
  end.

(** [Contract.get_invoice_date]: a fresh rule with the contract's frequency
    only, started at the previous invoice date; [None.date()] raises. *)
Definition get_invoice_date (c : Contract.t) (last_invoice_date : Z) : result Z :=
  r <- rrule_of c ;;
  let last := todatetime last_invoice_date in
  d <- rrule_after (mk_rrule (_freq r) 1 last) last ;;
  match d with
  | Some d => Ok d
  | None => Err AttributeError
  end.

(** ** [ContractLine.get_last_consumption_date] and friends

    [SELECT contract_line, MAX(end_period_date) ... GROUP BY contract_line]
    restricted to one line: [None] when the line has no consumption. *)
Definition max_opt (l : list Z) : option Z :=
  fold_right (fun x acc => match acc with
                           | None => Some x
                           | Some y => Some (Z.max x y)
                           end) None l.

Definition consumptions_of (table : list Consumption.t) (line : nat) :=
  filter (fun c => Nat.eqb (Consumption.contract_line c) line) table.

Definition get_last_consumption_date (table : list Consumption.t) (line : nat)
  : option Z :=
  max_opt (map Consumption.end_period_date (consumptions_of table line)).

Definition get_last_consumption_invoice_date (table : list Consumption.t)
  (line : nat) : option Z :=
  max_opt (map Consumption.invoice_date (consumptions_of table line)).

(** The two Function fields of [contract.line]: both are declared with the
    getter ['get_last_consumption_date'] (lines 323-326). *)
Definition last_consumption_date := get_last_consumption_date.
Definition last_consumption_invoice_date := get_last_consumption_date.

(** [ContractLine.get_consumption] *)
Definition get_consumption (line : nat) (start_date end_date invoice_date
  start_period finish_period : Z) : Consumption.t :=
  Consumption.mk 0 line None start_period finish_period start_date end_date
    invoice_date.

(** ** [Contract.get_consumptions]

    The variables the [for date in ...] loop carries from one occurrence
    to the next.  ([end_contract] is [None] throughout: its two branches are
    dead and left out.) *)
Record loop_state := {
  ls_start : Z;
  ls_last_invoice_date : option Z;
  ls_last_consumption_date : option Z
}.

Fixpoint consumption_loop (c : Contract.t) (line : nat) (start_period_date : Z)
  (s : loop_state) (dates : list Z) : result (list Consumption.t) :=
  match dates with
  | [] => Ok []
  | o :: rest =>
      date <- add_days o (-1) ;;
      invoice_date <-
        (match ls_last_invoice_date s with
         | Some li => get_invoice_date c li
         | None =>
             Ok (match Contract.first_invoice_date c with
                 | Some f => f
                 | None => date
                 end)
         end) ;;
      let finish_date := date in
      let '(start_period, start) :=
        match ls_last_consumption_date s with
        | None => (start_period_date, Contract.start_date c)
        | Some _ => (ls_start s, ls_start s)
        end in
      let cons := get_consumption line start date invoice_date start_period
                    finish_date in
      date' <- add_days date 1 ;;
      rest' <- consumption_loop c line start_period_date
                 {| ls_start := date';
                    ls_last_invoice_date := Some invoice_date;
                    ls_last_consumption_date := Some date' |} rest ;;
      Ok (cons :: rest')
  end.

(** The body of [for line in self.lines]. *)
Definition line_consumptions (c : Contract.t) (table : list Consumption.t)
  (end_date : Z) (line : nat) : result (list Consumption.t) :=
  let start_period_date := Contract.start_period_date c in
  last_consumption_date <-
    (match last_consumption_date table line with
     | None => Ok None
     | Some e => d <- add_days (todatetime e) 1 ;; Ok (Some d)
     end) ;;
  start <-
    (match last_consumption_date with
     | None => Ok start_period_date
     | Some d => add_days d 1
     end) ;;
  let last_invoice_date := last_consumption_invoice_date table line in
  r <- rrule_of c ;;
  dates <- between r (todatetime start) end_date ;;
  consumption_loop c line start_period_date
    {| ls_start := start;
       ls_last_invoice_date := last_invoice_date;
       ls_last_consumption_date := last_consumption_date |}
    dates.

(** [today] is [Date.today()] of the [ir.date] model. *)
Definition get_consumptions (today : Z) (c : Contract.t)
  (table : list Consumption.t) (end_date : option Z)
  : result (list Consumption.t) :=
  let end_date := todatetime (match end_date with Some d => d | None => today end) in
  blocks <- mapM (line_consumptions c table end_date) (Contract.lines c) ;;
  Ok (List.concat blocks).

(** [ContractConsumption.create]: rows get the next ids of the table. *)
Fixpoint create_consumptions (next : nat) (cs : list Consumption.t)
  : list Consumption.t :=
  match cs with
  | [] => []
  | c :: cs' =>
      Consumption.mk next (Consumption.contract_line c) (Consumption.invoice_line c)
        (Consumption.init_period_date c) (Consumption.end_period_date c)
        (Consumption.start_date c) (Consumption.end_date c)
        (Consumption.invoice_date c)
      :: create_consumptions (S next) cs'
  end.

Definition next_id (table : list Consumption.t) : nat :=
  S (fold_right (fun c m => Nat.max (Consumption.id c) m) 0%nat table).

(** [Contract.consume(contracts, date)]: returns the table after the
    creation and the created records.  [date + relativedelta(days=+1)] with
    [date = None] raises [TypeError]. *)
Definition consume (today : Z) (contracts : list Contract.t)
  (table : list Consumption.t) (date : option Z)
  : result (list Consumption.t * list Consumption.t) :=
  date <- (match date with
           | None => Err TypeError
           | Some d => add_days d 1
           end) ;;
  to_create <- mapM (fun c => get_consumptions today c table (Some date)) contracts ;;
  let created := create_consumptions (next_id table) (List.concat to_create) in
  Ok (table ++ created, created).

(** ** [Contract.check_start_date] and [Contract.validate]

    Python 2's [hasattr(self, 'rrule')] is [False] whenever evaluating the
    property raises, so a contract whose rule cannot be built is accepted.
    [None.date()] (no occurrence after the start period) raises, and so does
    an iteration of the rule that raises. *)
Definition check_start_date (c : Contract.t) : result (option bool) :=
  match rrule_of c with
  | Err _ => Ok None
  | Ok r =>
      d <- rrule_after r (todatetime (Contract.start_period_date c)) ;;
      match d with
      | None => Err AttributeError
      | Some d =>
          if (Contract.start_period_date c <=? Contract.start_date c)
             && (Contract.start_date c <? d)
          then Ok (Some true)
          else Err (UserError "start_date_not_valid")
      end
  end.

(** The framework's own field validation ([super().validate]) is not
    modelled: only the module's check follows it. *)
Definition validate (contracts : list Contract.t) : result unit :=
  _ <- mapM check_start_date contracts ;; Ok tt.

(** ** Invoicing records *)

(** The selection of [account.invoice]'s type, ranked as its strings
    compare ('in_credit_note' < 'in_invoice' < 'out_credit_note' <
    'out_invoice'). *)
Inductive invoice_type := In_credit_note | In_invoice | Out_credit_note | Out_invoice.

Definition invoice_type_rank (t : invoice_type) : Z :=
  match t with
  | In_credit_note => 0 | In_invoice => 1 | Out_credit_note => 2 | Out_invoice => 3
  end.

Module Uom.
Record t := mk { id : nat; rounding : Q }.
End Uom.

Module Product.
Record t := mk {
  id : nat;
  default_uom : Uom.t;
  customer_taxes_used : list nat;
  account_revenue_used : option nat
}.
End Product.

Module Service.
Record t := mk { id : nat; product : Product.t }.
End Service.

Module ContractLine.
Record t := mk {
  id : nat;
  contract : nat;
  service : option Service.t;
  name : option string;
  description : string;
  unit_price : Q
}.
End ContractLine.

(** [customer_tax_rule]: the rule's [apply(tax, pattern)], when the party
    has one. *)
Module Party.
Record t := mk {
  id : nat;
  customer_tax_rule : option (option nat -> list nat);
  customer_payment_term : option nat;
  account_receivable : option nat;
  invoice_address : option nat    (** [address_get('invoice')] *)
}.
End Party.

Module InvoiceLine.
Record t := mk {
  id : nat;                        (** 0 while the line is not saved *)
  invoice : option nat;
  type : string;
  origin : nat;                    (** the [contract.line] *)
  company : nat;
  currency : nat;
  product : option nat;
  description : string * Z * Z;    (** ['%(name)s (%(start)s - %(end)s)'] *)
  unit_price : Q;
  party : nat;
  unit : option Uom.t;
  taxes : list nat;
  account : nat;
  invoice_type : invoice_type;
  quantity : Q
}.
End InvoiceLine.

Module Invoice.
Record t := mk {
  id : nat;
  party : nat;
  company : nat;
  currency : nat;
  type : invoice_type;
  invoice_date : Z;
  invoice_address : option nat;
  journal : option nat;
  payment_term : option nat;
  account : option nat;
  lines : list nat
}.
End Invoice.

Record db := mk_db {
  db_contracts : list Contract.t;
  db_lines : list ContractLine.t;
  db_parties : list Party.t;
  db_consumptions : list Consumption.t;
  db_invoice_lines : list InvoiceLine.t;
  db_invoices : list Invoice.t
}.

(** Services of the framework the module calls: [Uom.round],
    [Property.get('account_revenue', model)] and the first revenue
    journal. *)
Record env := mk_env {
  uom_round : Q -> Q -> Q;
  property_account_revenue : string -> option nat;
  revenue_journal : option nat
}.

Definition lookup {A : Type} (id : A -> nat) (l : list A) (i : nat) : result A :=
  match find (fun x => Nat.eqb (id x) i) l with
  | Some x => Ok x
  | None => Err (UserError "missing_record")
  end.

(** ** [ContractConsumption.get_invoice_line] *)

Definition taxes_of (party : Party.t) (p : Product.t) : list nat :=
  match Party.customer_tax_rule party with
  | Some apply =>
      flat_map (fun tax => apply (Some tax)) (Product.customer_taxes_used p)
      ++ apply None
  | None => Product.customer_taxes_used p
  end.

(** [(b - a).total_seconds()] for two dates. *)
Definition total_seconds (a b : Z) : Z := (b - a) * 86400.

(** Float division: [ZeroDivisionError] on a zero divisor. *)
Definition divide (num den : Z) : result Q :=
  if den =? 0 then Err ZeroDivisionError else Ok (inject_Z num / inject_Z den)%Q.

Definition get_invoice_line (e : env) (d : db) (self : Consumption.t)
  : result InvoiceLine.t :=
  cl <- lookup ContractLine.id (db_lines d) (Consumption.contract_line self) ;;
  ct <- lookup Contract.id (db_contracts d) (ContractLine.contract cl) ;;
  party <- lookup Party.id (db_parties d) (Contract.party ct) ;;
  let product := option_map Service.product (ContractLine.service cl) in
  acc <-
    (match product with
     | Some p =>
         match Product.account_revenue_used p with
         | Some a => Ok (Some (Product.default_uom p), taxes_of party p, a)
         | None => Err (UserError "missing_account_revenue")
         end
     | None =>
         match property_account_revenue e "product.template" with
         | Some a => Ok (None, [], a)
         | None =>
             match property_account_revenue e "product.category" with
             | Some a => Ok (None, [], a)
             | None => Err (UserError "missing_account_revenue_property")
             end
         end
     end) ;;
  let '(unit, taxes, account) := acc in
  quantity <- divide (total_seconds (Consumption.start_date self) (Consumption.end_date self))
                (total_seconds (Consumption.init_period_date self)
                   (Consumption.end_period_date self)) ;;
  let rounding := match unit with Some u => Uom.rounding u | None => 1%Q end in
  Ok {| InvoiceLine.id := 0;
        InvoiceLine.invoice := None;
        InvoiceLine.type := "line";
        InvoiceLine.origin := ContractLine.id cl;
        InvoiceLine.company := Contract.company ct;
        InvoiceLine.currency := Contract.currency ct;
        InvoiceLine.product := option_map Product.id product;
        InvoiceLine.description := (ContractLine.description cl,
                                    Consumption.start_date self,
                                    Consumption.end_date self);
        InvoiceLine.unit_price := ContractLine.unit_price cl;
        InvoiceLine.party := Contract.party ct;
        InvoiceLine.unit := unit;
        InvoiceLine.taxes := taxes;
        InvoiceLine.account := account;
        InvoiceLine.invoice_type := Out_invoice;
        InvoiceLine.quantity := uom_round e quantity rounding |}.

(** Field updates of saved records. *)
Definition set_consumption_invoice_line (c : Consumption.t) (l : option nat)
  : Consumption.t :=
  Consumption.mk (Consumption.id c) (Consumption.contract_line c) l
    (Consumption.init_period_date c) (Consumption.end_period_date c)
    (Consumption.start_date c) (Consumption.end_date c) (Consumption.invoice_date c).

Definition set_line_id (l : InvoiceLine.t) (i : nat) (inv : option nat)
  : InvoiceLine.t :=
  InvoiceLine.mk i inv (InvoiceLine.type l) (InvoiceLine.origin l)
    (InvoiceLine.company l) (InvoiceLine.currency l) (InvoiceLine.product l)
    (InvoiceLine.description l) (InvoiceLine.unit_price l) (InvoiceLine.party l)
    (InvoiceLine.unit l) (InvoiceLine.taxes l) (InvoiceLine.account l)
    (InvoiceLine.invoice_type l) (InvoiceLine.quantity l).

Definition set_invoice_id (v : Invoice.t) (i : nat) (lines : list nat) : Invoice.t :=
  Invoice.mk i (Invoice.party v) (Invoice.company v) (Invoice.currency v)
    (Invoice.type v) (Invoice.invoice_date v) (Invoice.invoice_address v)
    (Invoice.journal v) (Invoice.payment_term v) (Invoice.account v) lines.

Definition next_line_id (d : db) : nat :=
  S (fold_right (fun l m => Nat.max (InvoiceLine.id l) m) 0%nat (db_invoice_lines d)).

Definition next_invoice_id (d : db) : nat :=
  S (fold_right (fun v m => Nat.max (Invoice.id v) m) 0%nat (db_invoices d)).

(** ** Python's [sorted] (stable, by key) and [itertools.groupby]

    Keys are compared as Python compares tuples: lexicographically.  A
    model instance compares by its id. *)
Fixpoint lex_compare (a b : list Z) : comparison :=
  match a, b with
  | [], [] => Eq
  | [], _ :: _ => Lt
  | _ :: _, [] => Gt
  | x :: a', y :: b' =>
      match Z.compare x y with
      | Eq => lex_compare a' b'
      | c => c
      end
  end.

Definition lex_ltb (a b : list Z) : bool :=
  match lex_compare a b with Lt => true | _ => false end.

Definition lex_eqb (a b : list Z) : bool :=
  match lex_compare a b with Eq => true | _ => false end.

Section SortGroup.
Context {A K : Type} (enc : K -> list Z) (kf : A -> K).

(** Insertion after every element whose key is not greater: stable. *)
Fixpoint insert_by (x : A) (l : list A) : list A :=
  match l with
  | [] => [x]
  | y :: l' => if lex_ltb (enc (kf x)) (enc (kf y)) then x :: l
               else y :: insert_by x l'
  end.

(** Any stable sort gives this list: the order of equal keys is the
    input's. *)
Definition sorted_by (l : list A) : list A :=
  fold_left (fun acc x => insert_by x acc) l [].

(** [groupby(l, key)]: runs of consecutive elements with equal keys, each
    with the key of its first element. *)
Fixpoint groupby (l : list A) : list (K * list A) :=
  match l with
  | [] => []
  | x :: l' =>
      match groupby l' with
      | (k, g) :: rest =>
          if lex_eqb (enc (kf x)) (enc k) then (kf x, x :: g) :: rest
          else (kf x, [x]) :: (k, g) :: rest
      | [] => [(kf x, [x])]
      end
  end.
End SortGroup.

(** ** [ContractConsumption._group_invoice_key] and [_get_invoice] *)

Definition gkey : Type := (nat * nat * nat * invoice_type * Z)%type.

Definition gkey_enc (k : gkey) : list Z :=
  let '(p, co, cu, ty, dt) := k in
  [Z.of_nat p; Z.of_nat co; Z.of_nat cu; invoice_type_rank ty; dt].

Definition group_invoice_key (d : db) (item : nat * InvoiceLine.t) : result gkey :=
  let '(consumption_id, invoice_line) := item in
  consumption <- lookup Consumption.id (db_consumptions d) consumption_id ;;
  Ok (InvoiceLine.party invoice_line, InvoiceLine.company invoice_line,
      InvoiceLine.currency invoice_line, InvoiceLine.invoice_type invoice_line,
      Consumption.invoice_date consumption).

Definition get_invoice (e : env) (d : db) (keys : gkey) : result Invoice.t :=
  let '(p, co, cu, ty, dt) := keys in
  party <- lookup Party.id (db_parties d) p ;;
  Ok (Invoice.mk 0 p co cu ty dt (Party.invoice_address party) (revenue_journal e)
        (Party.customer_payment_term party) (Party.account_receivable party) []).

Definition invoice_key (v : Invoice.t) : gkey :=
  (Invoice.party v, Invoice.company v, Invoice.currency v, Invoice.type v,
   Invoice.invoice_date v).

(** ** [ContractConsumption.invoice] *)

(** [lines[consumption.id] = line] on a dict kept in insertion order. *)
Fixpoint dict_set {V : Type} (k : nat) (v : V) (d : list (nat * V)) : list (nat * V) :=
  match d with
  | [] => [(k, v)]
  | (k', v') :: d' => if Nat.eqb k k' then (k, v) :: d' else (k', v') :: dict_set k v d'
  end.

(** The first loop: one saved invoice line per consumption. *)
Fixpoint invoice_lines_loop (e : env) (d : db) (consumptions : list Consumption.t)
  (lines : list (nat * InvoiceLine.t)) (to_write : list (nat * nat))
  : result (db * list (nat * InvoiceLine.t) * list (nat * nat)) :=
  match consumptions with
  | [] => Ok (d, lines, to_write)
  | consumption :: rest =>
      line <- get_invoice_line e d consumption ;;
      let line := set_line_id line (next_line_id d) None in
      let d := mk_db (db_contracts d) (db_lines d) (db_parties d)
                 (db_consumptions d) (db_invoice_lines d ++ [line]) (db_invoices d) in
      invoice_lines_loop e d rest (dict_set (Consumption.id consumption) line lines)
        (to_write ++ [(Consumption.id consumption, InvoiceLine.id line)])
  end.

Fixpoint create_invoices (next : nat) (invoices : list Invoice.t) : list Invoice.t :=
  match invoices with
  | [] => []
  | v :: vs => set_invoice_id v next (Invoice.lines v) :: create_invoices (S next) vs
  end.

(** A line listed by a created invoice points back to it. *)
Definition attach_line (invoices : list Invoice.t) (l : InvoiceLine.t) : InvoiceLine.t :=
  match find (fun v => existsb (Nat.eqb (InvoiceLine.id l)) (Invoice.lines v)) invoices with
  | Some v => set_line_id l (InvoiceLine.id l) (Some (Invoice.id v))
  | None => l
  end.

(** [cls.write] of the collected [to_write] pairs. *)
Definition write_invoice_lines (to_write : list (nat * nat)) (cs : list Consumption.t)
  : list Consumption.t :=
  fold_left (fun cs w =>
               map (fun c => if Nat.eqb (Consumption.id c) (fst w)
                             then set_consumption_invoice_line c (Some (snd w)) else c) cs)
    to_write cs.

(** Returns the database afterwards and the created invoices.
    [Invoice.update_taxes] (tax lines of the framework) is not modelled. *)
Definition invoice (e : env) (d : db) (consumption_ids : list nat)
  : result (db * list Invoice.t) :=
  consumptions <- mapM (lookup Consumption.id (db_consumptions d)) consumption_ids ;;
  r <- invoice_lines_loop e d consumptions [] [] ;;
  let '(d, lines, to_write) := r in
  match lines with
  | [] => Ok (d, [])
  | _ :: _ =>
      decorated <- mapM (fun it => k <- group_invoice_key d it ;; Ok (k, it)) lines ;;
      let sorted := sorted_by gkey_enc fst decorated in
      invoices <- mapM (fun kg =>
                          v <- get_invoice e d (fst kg) ;;
                          Ok (set_invoice_id v 0 (Invoice.lines v ++
                                map (fun x => InvoiceLine.id (snd (snd x))) (snd kg))))
                       (groupby gkey_enc fst sorted) ;;
      let invoices := create_invoices (next_invoice_id d) invoices in
      Ok (mk_db (db_contracts d) (db_lines d) (db_parties d)
            (write_invoice_lines to_write (db_consumptions d))
            (map (attach_line invoices) (db_invoice_lines d))
            (db_invoices d ++ invoices),
          invoices)
  end.

(** ** [Contract.set_reference]

    [Sequence.get_id] of the contract sequence is a counter: the [n]-th
    number drawn is [next + n], shown as the string [seq_fmt (next + n)]
    (the sequence's prefix, padding and suffix).  A reference is kept when
    it is truthy (set and not empty); [cls.write] of the [to_write] list writes
    the references in order, each to the record with the contract's id. *)
Definition reference_truthy (c : Contract.t) : bool :=
  match Contract.reference c with
  | Some (String _ _) => true
  | _ => false
  end.

Definition set_contract_reference (c : Contract.t) (r : option string) : Contract.t :=
  Contract.mk (Contract.id c) (Contract.company c) (Contract.currency c)
    (Contract.party c) r (Contract.start_date c) (Contract.end_date c)
    (Contract.start_period_date c) (Contract.first_invoice_date c)
    (Contract.lines c) (Contract.state c) (Contract.freq c) (Contract.interval c).

Fixpoint set_reference_loop (seq_fmt : nat -> string) (next : nat)
  (contracts : list Contract.t) : nat * list (nat * string) :=
  match contracts with
  | [] => (next, [])
  | c :: cs =>
      if reference_truthy c then set_reference_loop seq_fmt next cs
      else
        let reference := seq_fmt next in
        let '(next', to_write) := set_reference_loop seq_fmt (S next) cs in
        (next', (Contract.id c, reference) :: to_write)
  end.

Definition write_references (table : list Contract.t) (to_write : list (nat * string))
  : list Contract.t :=
  fold_left (fun t '(i, reference) =>
               map (fun r => if Nat.eqb (Contract.id r) i
                             then set_contract_reference r (Some reference) else r) t)
    to_write table.

Definition set_reference (seq_fmt : nat -> string) (next : nat)
  (table contracts : list Contract.t) : nat * list Contract.t :=
  let '(next', to_write) := set_reference_loop seq_fmt next contracts in
  (next', write_references table to_write).

(** ** [ContractLine.on_change_service]

    The form's values it depends on ([service], [unit_price],
    [description]) and the dict of changes it returns: [unit_price] is
    always a key; [name] and [description] are [None] when they are not
    keys.  A [Decimal] is falsy when zero, a string when empty. *)
Module ServiceForm.
Record t := mk {
  rec_name : string;             (** [service.rec_name] *)
  product_list_price : Q;        (** [service.product.list_price] *)
  product_rec_name : string      (** [service.product.rec_name] *)
}.
End ServiceForm.

Module LineChanges.
Record t := mk {
  unit_price : option Q;
  name : option string;
  description : option string
}.
End LineChanges.

Definition decimal_truthy (q : option Q) : bool :=
  match q with Some x => negb (Qeq_bool x 0) | None => false end.

Definition string_truthy (s : option string) : bool :=
  match s with Some (String _ _) => true | _ => false end.

Definition on_change_service (service : option ServiceForm.t) (unit_price : option Q)
  (description : option string) : LineChanges.t :=
  match service with
  | None => LineChanges.mk None None None
  | Some s =>
      LineChanges.mk
        (if decimal_truthy unit_price then None
         else Some (ServiceForm.product_list_price s))
        (Some (ServiceForm.rec_name s))
        (if string_truthy description then None
         else Some (ServiceForm.product_rec_name s))
  end.

(** ** [CreateConsumptions.do_create_consumptions]

    [Contract.search([('state', '=', 'validated')])] over the contract
    table, then [Contract.consume] up to the wizard's date; the result is
    the consumption table afterwards and the [res_id] list of the action
    (the reversal of the action's views is display only). *)
Definition is_validated (c : Contract.t) : bool :=
  match Contract.state c with Validated => true | _ => false end.

Definition do_create_consumptions (today : Z) (contracts : list Contract.t)
  (table : list Consumption.t) (date : option Z)
  : result (list Consumption.t * list nat) :=
  r <- consume today (filter is_validated contracts) table date ;;
  let '(table', consumptions) := r in
  Ok (table', map Consumption.id consumptions).

(** ** Views of the generator's output used by the proofs *)


(** The prefix of an iteration that [between_loop] walks before it
    stops at the first element at or after [before]. *)
Fixpoint take_below (before : Z) (l : list Z) : list Z :=
  match l with
  | [] => []
  | i :: l' => if before <=? i then [] else i :: take_below before l'
  end.


(** ** Concrete data used by the examples below *)

(** A monthly contract whose period starts 2020-01-01, with one line. *)
Definition ex_contract : Contract.t :=
  Contract.mk 1 1 1 1 None (ymd2ord 2020 1 1) None (ymd2ord 2020 1 1) None [1%nat]
    Validated (Some MONTHLY) None.

(** The same contract without a frequency. *)
Definition ex_contract_nofreq : Contract.t :=
  Contract.mk 1 1 1 1 None (ymd2ord 2020 1 1) None (ymd2ord 2020 1 1) None [1%nat]
    Validated None None.

(** A daily contract starting 2020-01-01. *)
Definition ex_contract_daily : Contract.t :=
  Contract.mk 1 1 1 1 None (ymd2ord 2020 1 1) None (ymd2ord 2020 1 1) None [1%nat]
    Validated (Some DAILY) None.

(** Line 1 was consumed for January 2020. *)
Definition ex_history : list Consumption.t :=
  [Consumption.mk 1 1 None (ymd2ord 2020 1 1) (ymd2ord 2020 1 31) (ymd2ord 2020 1 1)
     (ymd2ord 2020 1 31) (ymd2ord 2020 1 31)].

(** The two consumptions [consume] creates for [ex_contract] through
    2020-03-31 on an empty table. *)
Definition ex_q1_run : list Consumption.t :=
  [Consumption.mk 1 1 None (ymd2ord 2020 1 1) (ymd2ord 2020 1 31) (ymd2ord 2020 1 1)
     (ymd2ord 2020 1 31) (ymd2ord 2020 1 31);
   Consumption.mk 2 1 None (ymd2ord 2020 2 1) (ymd2ord 2020 2 29) (ymd2ord 2020 2 1)
     (ymd2ord 2020 2 29) (ymd2ord 2020 3 31)].

(** Two consumptions of line 1 (January and February 2020), not invoiced,
    with the same invoice date. *)
Definition ex_two : list Consumption.t :=
  [Consumption.mk 1 1 None (ymd2ord 2020 1 1) (ymd2ord 2020 1 31) (ymd2ord 2020 1 1)
     (ymd2ord 2020 1 31) (ymd2ord 2020 1 31);
   Consumption.mk 2 1 None (ymd2ord 2020 2 1) (ymd2ord 2020 2 29) (ymd2ord 2020 2 1)
     (ymd2ord 2020 2 29) (ymd2ord 2020 1 31)].

Definition ex_uom : Uom.t := Uom.mk 1 1%Q.
Definition ex_product : Product.t := Product.mk 1 ex_uom [] (Some 5%nat).
Definition ex_line : ContractLine.t :=
  ContractLine.mk 1 1 (Some (Service.mk 1 ex_product)) None "Service"%string 10%Q.
Definition ex_party : Party.t := Party.mk 1 None None None None.

(** [Uom.round] as [round(number / precision) * precision], on exact
    rationals, with [round] half away from zero. *)
Definition ex_uom_round (q r : Q) : Q :=
  let x := (q / r)%Q in
  let n := Qnum x in let dd := Zpos (Qden x) in
  let z := if n <? 0 then - ((- n * 2 + dd) / (2 * dd)) else (n * 2 + dd) / (2 * dd) in
  (inject_Z z * r)%Q.

Definition ex_env : env := mk_env ex_uom_round (fun _ => None) None.

Definition ex_db (contract : Contract.t) (consumptions : list Consumption.t)
  (invoice_lines : list InvoiceLine.t) : db :=
  mk_db [contract] [ex_line] [ex_party] consumptions invoice_lines [].

(** Consumption 1 of [ex_history], already invoiced on line 7. *)
Definition ex_invoiced : list Consumption.t :=
  [Consumption.mk 1 1 (Some 7%nat) (ymd2ord 2020 1 1) (ymd2ord 2020 1 31)
     (ymd2ord 2020 1 1) (ymd2ord 2020 1 31) (ymd2ord 2020 1 31)].

Definition ex_invoice_line7 : InvoiceLine.t :=
  InvoiceLine.mk 7 None "line"%string 1 1 1 (Some 1%nat) ("Service"%string, ymd2ord 2020 1 1, ymd2ord 2020 1 31)
    10%Q 1 (Some ex_uom) [] 5 Out_invoice 1%Q.

(** A service product without a revenue account, and a line selling it. *)
Definition ex_product_noacc : Product.t := Product.mk 2 ex_uom [] None.
Definition ex_line_noacc : ContractLine.t :=
  ContractLine.mk 1 1 (Some (Service.mk 2 ex_product_noacc)) None "Service"%string 10%Q.

(** A draft copy of [ex_contract] (id 2, line 2) and a contract with a
    reference already set (id 3). *)
Definition ex_contract_draft : Contract.t :=
  Contract.mk 2 1 1 1 None (ymd2ord 2020 1 1) None (ymd2ord 2020 1 1) None [2%nat]
    Draft (Some MONTHLY) None.
Definition ex_contract_ref : Contract.t :=
  Contract.mk 3 1 1 1 (Some "C7"%string) (ymd2ord 2020 1 1) None (ymd2ord 2020 1 1) None
    [3%nat] Draft (Some MONTHLY) None.

(** [ex_contract] with its first invoice date set to 2020-02-01. *)
Definition ex_contract_fid : Contract.t :=
  Contract.mk 1 1 1 1 None (ymd2ord 2020 1 1) None (ymd2ord 2020 1 1)
    (Some (ymd2ord 2020 2 1)) [1%nat] Validated (Some MONTHLY) None.

(** A weekly contract starting 2020-01-01. *)
Definition ex_contract_weekly : Contract.t :=
  Contract.mk 1 1 1 1 None (ymd2ord 2020 1 1) None (ymd2ord 2020 1 1) None [1%nat]
    Validated (Some WEEKLY) None.

(** Line 1 was consumed up to 9999-12-30. *)
Definition ex_history_max : list Consumption.t :=
  [Consumption.mk 1 1 None (ymd2ord 9999 12 1) (ymd2ord 9999 12 30) (ymd2ord 9999 12 1)
     (ymd2ord 9999 12 30) (ymd2ord 9999 12 30)].

(** A sequence shown as one digit. *)
Definition ex_seq_fmt (n : nat) : string := String (Ascii.ascii_of_nat (48 + n)) EmptyString.

(** * Claims *)

Lemma add_days_err d n e : add_days d n = Err e -> e = OverflowError.
Proof.
  unfold add_days. destruct (_ && _); intros H; inversion H; reflexivity.
Qed.

(** ** C1 *)


(** ** C2 *)

(** C2 (code_bug): line 1's last consumption ends 2020-01-31; the next run
    starts its first consumption on 2020-02-02, two days after it. *)
Lemma C2_resume_skips_a_day :
  match consume 0 [ex_contract] ex_history (Some (ymd2ord 2020 3 31)) with
  | Ok (_, c1 :: _) =>
      Consumption.start_date c1 = ymd2ord 2020 1 31 + 2
      /\ Consumption.start_date c1 <> ymd2ord 2020 1 31 + 1
      /\ Consumption.end_date c1 = ymd2ord 2020 2 29
  | _ => False
  end.
Proof. vm_compute. repeat split; discriminate. Qed.

(** ** C3 *)

(** C3 (code_bug): the first run through 2020-02-01 of [ex_contract_fid]
    records a January consumption invoiced on 2020-02-01, and the line's
    last invoice date ([get_last_consumption_invoice_date]) is then
    2020-02-01, whose next occurrence is 2020-03-01.  The second run
    through 2020-03-31 starts its invoice dates from the line's
    [last_consumption_invoice_date], which is computed by
    [get_last_consumption_date]: the last end of period 2020-01-31.  Its
    consumption is invoiced on 2020-03-31 instead. *)
Lemma C3_resume_invoice_date_from_period_end :
  match consume 0 [ex_contract_fid] [] (Some (ymd2ord 2020 2 1)) with
  | Ok (t1, [c1]) =>
      Consumption.end_period_date c1 = ymd2ord 2020 1 31
      /\ Consumption.invoice_date c1 = ymd2ord 2020 2 1
      /\ get_last_consumption_invoice_date t1 1 = Some (ymd2ord 2020 2 1)
      /\ get_invoice_date ex_contract_fid (ymd2ord 2020 2 1) = Ok (ymd2ord 2020 3 1)
      /\ last_consumption_invoice_date t1 1 = Some (ymd2ord 2020 1 31)
      /\ match consume 0 [ex_contract_fid] t1 (Some (ymd2ord 2020 3 31)) with
         | Ok (_, [c2]) =>
             Consumption.invoice_date c2 = ymd2ord 2020 3 31
             /\ Consumption.invoice_date c2 <> ymd2ord 2020 3 1
         | _ => False
         end
  | _ => False
  end.
Proof. vm_compute. repeat split; discriminate. Qed.

(** ** C4 *)

(** C4 (counterexample): a contract without frequency makes
    [get_consumptions] raise [TypeError]. *)
Lemma C4_missing_freq_raises :
  get_consumptions 0 ex_contract_nofreq [] (Some (ymd2ord 2020 4 1)) = Err TypeError.
Proof. reflexivity. Qed.

(** ** C6 *)

(** C6 (counterexample): invoicing consumption 1, already linked to
    invoice line 7, saves a new line 8 and relinks the consumption to it. *)
Lemma C6_invoiced_consumption_relinked :
  match invoice ex_env (ex_db ex_contract ex_invoiced [ex_invoice_line7]) [1%nat] with
  | Ok (d, _) =>
      map Consumption.invoice_line (db_consumptions d) = [Some 8%nat]
      /\ map InvoiceLine.id (db_invoice_lines d) = [7%nat; 8%nat]
  | Err _ => False
  end.
Proof. vm_compute. split; reflexivity. Qed.

(** ** C7 *)

(** C7 (code_bug): a daily contract's consumption spans zero days, in a
    period of zero days; invoicing it divides by zero. *)
Lemma C7_daily_consumption_zero_division :
  match consume 0 [ex_contract_daily] [] (Some (ymd2ord 2020 1 2)) with
  | Ok (st, [c]) =>
      Consumption.start_date c = ymd2ord 2020 1 1
      /\ Consumption.end_date c = ymd2ord 2020 1 1
      /\ Consumption.init_period_date c = ymd2ord 2020 1 1
      /\ Consumption.end_period_date c = ymd2ord 2020 1 1
      /\ invoice ex_env (ex_db ex_contract_daily st []) [Consumption.id c]
         = Err ZeroDivisionError
  | _ => False
  end.
Proof. vm_compute. repeat split. Qed.

(** ** C10 *)

(** C10: [consume] with [date = None] raises [TypeError], whatever the
    contracts and the consumptions already recorded. *)
Theorem C10_consume_none_type_error :
  forall today contracts table,
    consume today contracts table None = Err TypeError.
Proof. reflexivity. Qed.

(** ** C9 *)

(** The iteration of a rule raises nothing but [ValueError]. *)
Lemma after_from_err r dt k f e : after_from r dt k f = Err e -> e = ValueError.
Proof.
  revert k. induction f as [|f IH]; intros k; simpl; [discriminate|].
  destruct (rrule_candidate r k) as [o| | |]; try discriminate; [|apply IH|].
  - destruct (dt <? o); [discriminate | apply IH].
  - intros H. injection H as <-. reflexivity.
Qed.

(** C9: for a contract whose rule can be built, [validate] raises
    ['start_date_not_valid'] exactly when the start date is outside
    [start_period_date, first occurrence after start_period_date), and
    passes exactly when it is inside. *)
Theorem C9_validate_start_date (c : Contract.t) (r : rrule) :
  rrule_of c = Ok r ->
  (validate [c] = Err (UserError "start_date_not_valid")
   <-> exists d, rrule_after r (Contract.start_period_date c) = Ok (Some d)
                 /\ ~ (Contract.start_period_date c <= Contract.start_date c < d))
  /\ (validate [c] = Ok tt
      <-> exists d, rrule_after r (Contract.start_period_date c) = Ok (Some d)
                    /\ Contract.start_period_date c <= Contract.start_date c < d).
Proof.
  intros Hr. unfold validate, check_start_date, todatetime. simpl. rewrite Hr.
  destruct (rrule_after r (Contract.start_period_date c)) as [[d|]|err] eqn:Ha; cbn [bind].
  - destruct (Z.leb_spec (Contract.start_period_date c) (Contract.start_date c));
      destruct (Z.ltb_spec (Contract.start_date c) d); simpl;
      (split; split; [intros Hv | intros (d' & Hd' & Hin) | intros Hv | intros (d' & Hd' & Hin)]);
      try (injection Hd' as <-); try discriminate;
      try (exists d; split; [reflexivity | lia]); try lia; reflexivity.
  - split; split; try discriminate; intros (d' & Hd' & _); discriminate.
  - apply after_from_err in Ha. subst err.
    split; split; try discriminate; intros (d' & Hd' & _); discriminate.
Qed.

Lemma C9_validate_start_date_witness :
  rrule_of ex_contract = Ok (mk_rrule MONTHLY 1 (ymd2ord 2020 1 1))
  /\ validate [ex_contract] = Ok tt.
Proof.
  split; [reflexivity|].
  apply (proj2 (C9_validate_start_date ex_contract (mk_rrule MONTHLY 1 (ymd2ord 2020 1 1))
                  eq_refl)).
  exists (ymd2ord 2020 2 1).
  split; [reflexivity | vm_compute; split; [intro H; discriminate | reflexivity]].
Defined.

(** ** C4 (amended) *)

Lemma max_opt_ge_1 l m : Forall (fun v => 1 <= v) l -> max_opt l = Some m -> 1 <= m.
Proof.
  revert m. induction l as [|x l IH]; intros m Hl H; [discriminate|].
  inversion Hl as [|? ? Hx Hl']; subst. simpl in H.
  destruct (max_opt l) as [y|] eqn:E; injection H as <-; [|exact Hx].
  specialize (IH y Hl' eq_refl). lia.
Qed.

(** C4: for a contract without a frequency, [get_consumptions] returns no
    consumption only when the contract has no lines; otherwise its first
    line makes it raise: [OverflowError] when the line's last consumption
    ends on one of the last two days of the calendar (two days are added
    to it), [TypeError] in every other case (the rule is built without its
    required frequency).  An unset or zero interval is not an error: the
    rule is built with interval 1. *)
Theorem C4_missing_freq_get_consumptions today c table end_date :
  (forall x, In x table -> 1 <= Consumption.end_period_date x) ->
  (Contract.freq c = None ->
   get_consumptions today c table end_date
   = match Contract.lines c with
     | [] => Ok []
     | l :: _ =>
         match last_consumption_date table l with
         | Some e => if e + 2 <=? MAXORDINAL then Err TypeError else Err OverflowError
         | None => Err TypeError
         end
     end)
  /\ (forall f, Contract.freq c = Some f ->
      (Contract.interval c = None \/ Contract.interval c = Some 0) ->
      rrule_of c = Ok (mk_rrule f 1 (Contract.start_period_date c))).
Proof.
  intros Htab. split.
  - intros Hf. unfold get_consumptions.
    destruct (Contract.lines c) as [|l ls]; [reflexivity|].
    cbn [mapM]. unfold line_consumptions.
    assert (Hr : rrule_of c = Err TypeError) by (unfold rrule_of; rewrite Hf; reflexivity).
    destruct (last_consumption_date table l) as [e|] eqn:Ee; cbn [bind].
    + assert (He1 : 1 <= e).
      { unfold last_consumption_date, get_last_consumption_date in Ee.
        refine (max_opt_ge_1 _ _ _ Ee). apply Forall_forall. intros v Hv.
        apply in_map_iff in Hv. destruct Hv as (x & <- & Hx).
        unfold consumptions_of in Hx. apply filter_In in Hx. exact (Htab x (proj1 Hx)). }
      unfold add_days, todatetime.
      destruct (Z.leb_spec (e + 2) MAXORDINAL) as [Hle|Hgt].
      * rewrite (proj2 (Z.leb_le 1 (e + 1))) by lia.
        rewrite (proj2 (Z.leb_le (e + 1) MAXORDINAL)) by lia. cbn [andb bind].
        rewrite (proj2 (Z.leb_le 1 (e + 1 + 1))) by lia.
        rewrite (proj2 (Z.leb_le (e + 1 + 1) MAXORDINAL)) by lia. cbn [andb bind].
        rewrite Hr. reflexivity.
      * rewrite (proj2 (Z.leb_le 1 (e + 1))) by lia. cbn [andb].
        destruct (Z.leb_spec (e + 1) MAXORDINAL); cbn [bind]; [|reflexivity].
        rewrite (proj2 (Z.leb_le 1 (e + 1 + 1))) by lia.
        rewrite (proj2 (Z.leb_gt (e + 1 + 1) MAXORDINAL)) by lia. reflexivity.
    + rewrite Hr. reflexivity.
  - intros f Hf Hi. unfold rrule_of, todatetime. rewrite Hf.
    destruct Hi as [-> | ->]; reflexivity.
Qed.

Lemma C4_missing_freq_get_consumptions_witness :
  get_consumptions 0 ex_contract_nofreq ex_history_max (Some MAXORDINAL) = Err OverflowError
  /\ get_consumptions 0 ex_contract_nofreq ex_history (Some (ymd2ord 2020 4 1)) = Err TypeError.
Proof.
  assert (H1 : forall x, In x ex_history_max -> 1 <= Consumption.end_period_date x)
    by (intros x [<-|[]]; vm_compute; discriminate).
  assert (H2 : forall x, In x ex_history -> 1 <= Consumption.end_period_date x)
    by (intros x [<-|[]]; vm_compute; discriminate).
  split.
  - rewrite (proj1 (C4_missing_freq_get_consumptions 0 ex_contract_nofreq ex_history_max
                      (Some MAXORDINAL) H1) eq_refl).
    vm_compute. reflexivity.
  - rewrite (proj1 (C4_missing_freq_get_consumptions 0 ex_contract_nofreq ex_history
                      (Some (ymd2ord 2020 4 1)) H2) eq_refl).
    vm_compute. reflexivity.
Defined.

(** ** C6 (amended) *)

Lemma lookup_id {A} (id : A -> nat) l i x : lookup id l i = Ok x -> id x = i.
Proof.
  unfold lookup. destruct (find _ l) eqn:E; intros H; inversion H; subst.
  apply find_some in E. destruct E as [_ E]. apply Nat.eqb_eq in E. exact E.
Qed.

Lemma lookup_set_invoice_line cs i c x :
  lookup Consumption.id cs i = Ok c ->
  lookup Consumption.id
    (map (fun c' => if Nat.eqb (Consumption.id c') i
                    then set_consumption_invoice_line c' x else c') cs) i
  = Ok (set_consumption_invoice_line c x).
Proof.
  unfold lookup. induction cs as [|c' cs IH]; simpl; [discriminate|].
  destruct (Nat.eqb (Consumption.id c') i) eqn:E; simpl.
  - intros H. inversion H; subst. simpl. rewrite E. reflexivity.
  - rewrite E. exact IH.
Qed.

Lemma max_fold_ge {A} (f : A -> nat) l x :
  In x l -> (f x <= fold_right (fun y m => Nat.max (f y) m) 0 l)%nat.
Proof.
  induction l as [|y l IH]; simpl; [contradiction|].
  intros [<-|H]; [lia|]. specialize (IH H). lia.
Qed.

Lemma next_line_id_fresh d : ~ In (next_line_id d) (map InvoiceLine.id (db_invoice_lines d)).
Proof.
  unfold next_line_id. intros H. apply in_map_iff in H. destruct H as (l & Hl & Hin).
  pose proof (max_fold_ge InvoiceLine.id _ _ Hin). lia.
Qed.

Lemma attach_line_id invs l : InvoiceLine.id (attach_line invs l) = InvoiceLine.id l.
Proof. unfold attach_line. destruct (find _ _); reflexivity. Qed.

(** C6: a consumption holds one [invoice_line] reference, but [invoice]
    does not check it: invoicing a consumption (linked or not) saves a new
    invoice line and points the consumption's [invoice_line] to it. *)
Theorem C6_invoice_relinks e d i c d' invs :
  lookup Consumption.id (db_consumptions d) i = Ok c ->
  invoice e d [i] = Ok (d', invs) ->
  exists n,
    lookup Consumption.id (db_consumptions d') i
      = Ok (set_consumption_invoice_line c (Some n))
    /\ ~ In n (map InvoiceLine.id (db_invoice_lines d))
    /\ In n (map InvoiceLine.id (db_invoice_lines d')).
Proof.
  intros Hl Hinv. pose proof (lookup_id _ _ _ _ Hl) as Hid.
  unfold invoice in Hinv. cbn [mapM bind] in Hinv. rewrite Hl in Hinv.
  cbn [bind invoice_lines_loop] in Hinv.
  destruct (get_invoice_line e d c) as [line|err]; cbn [bind] in Hinv; [|discriminate].
  cbn [invoice_lines_loop dict_set app] in Hinv.
  destruct (mapM _ _) as [dec|err]; cbn [bind] in Hinv; [|discriminate].
  destruct (mapM _ _) as [vs|err]; cbn [bind] in Hinv; [|discriminate].
  injection Hinv as <- <-. cbn [db_consumptions db_invoice_lines].
  exists (next_line_id d). split; [|split].
  - unfold write_invoice_lines. cbn [fold_left fst snd]. rewrite Hid.
    apply lookup_set_invoice_line. exact Hl.
  - apply next_line_id_fresh.
  - rewrite map_map. apply in_map_iff.
    exists (set_line_id line (next_line_id d) None). split.
    + rewrite attach_line_id. reflexivity.
    + apply in_or_app. right. left. reflexivity.
Qed.

Lemma C6_invoice_relinks_witness :
  lookup Consumption.id ex_invoiced 1 = Ok (hd (Consumption.mk 0 0 None 0 0 0 0 0) ex_invoiced)
  /\ exists n,
      match invoice ex_env (ex_db ex_contract ex_invoiced [ex_invoice_line7]) [1%nat] with
      | Ok (d', _) =>
          lookup Consumption.id (db_consumptions d') 1
            = Ok (set_consumption_invoice_line (hd (Consumption.mk 0 0 None 0 0 0 0 0) ex_invoiced)
                    (Some n))
          /\ ~ In n [7%nat]
      | Err _ => False
      end.
Proof.
  split; [reflexivity|].
  destruct (invoice ex_env (ex_db ex_contract ex_invoiced [ex_invoice_line7]) [1%nat])
    as [[d' vs]|err] eqn:E.
  - destruct (C6_invoice_relinks ex_env (ex_db ex_contract ex_invoiced [ex_invoice_line7]) 1
                (hd (Consumption.mk 0 0 None 0 0 0 0 0) ex_invoiced) d' vs eq_refl E)
      as (n & H1 & H2 & _).
    exists n. split; assumption.
  - exists 0%nat. vm_compute in E. discriminate.
Defined.

(** ** C1 (amended) *)







Section Q1.
Variable c : Contract.t.
Hypothesis Hfreq : Contract.freq c = Some MONTHLY.
Hypothesis Hint :
  Contract.interval c = None \/ Contract.interval c = Some 0 \/ Contract.interval c = Some 1.
Hypothesis Hspd : Contract.start_period_date c = ymd2ord 2020 1 1.



End Q1.



Lemma between_loop_started a b l : between_loop a b true l = take_below b l.
Proof.
  induction l as [|i l IH]; simpl; [reflexivity|].
  destruct (b <=? i); [reflexivity|]. rewrite IH. reflexivity.
Qed.

Lemma between_loop_sub a b s l x :
  In x (between_loop a b s l) -> In x (take_below b l).
Proof.
  revert s. induction l as [|i l IH]; intros s; simpl; [contradiction|].
  destruct (b <=? i); [contradiction|].
  destruct s; [rewrite between_loop_started; auto|].
  destruct (a <? i); [rewrite between_loop_started; auto|].
  intros H. right. exact (IH false H).
Qed.

Lemma take_below_lt b l x : In x (take_below b l) -> x < b.
Proof.
  induction l as [|i l IH]; simpl; [contradiction|].
  destruct (Z.leb_spec b i) as [Hbi|Hbi]; [contradiction|]. intros [<-|Hx]; auto.
Qed.

Lemma between_loop_cover a b l x :
  In x (take_below b l) -> x <= a \/ In x (between_loop a b false l).
Proof.
  induction l as [|i l IH]; simpl; [contradiction|].
  destruct (b <=? i); [contradiction|].
  destruct (Z.ltb_spec a i) as [Hai|Hai].
  - intros Hx. right. rewrite between_loop_started. exact Hx.
  - intros [<-|Hx]; [left; exact Hai | exact (IH Hx)].
Qed.

Lemma between_loop_none a b l :
  (forall x, In x (take_below b l) -> x <= a) -> between_loop a b false l = [].
Proof.
  induction l as [|i l IH]; simpl; intros H; [reflexivity|].
  destruct (b <=? i); [reflexivity|].
  destruct (Z.ltb_spec a i) as [Hai|Hai].
  - specialize (H i (or_introl eq_refl)). lia.
  - apply IH. intros x Hx. apply H. right. exact Hx.
Qed.

Lemma between_loop_head a b l x D :
  between_loop a b false l = x :: D -> a < x.
Proof.
  induction l as [|i l IH]; simpl; [discriminate|].
  destruct (b <=? i); [discriminate|].
  destruct (Z.ltb_spec a i) as [Hlt|Hge]; [intros Heq; injection Heq as <- _; exact Hlt | exact IH].
Qed.

(** [max_opt] is the maximum of the list. *)
Lemma max_opt_none l : max_opt l = None <-> l = [].
Proof.
  split; [|intros ->; reflexivity].
  destruct l as [|x l]; [reflexivity|]. simpl. destruct (max_opt l); discriminate.
Qed.

Lemma max_opt_some l m :
  max_opt l = Some m <-> In m l /\ forall x, In x l -> x <= m.
Proof.
  revert m. induction l as [|y l IH]; intros m; simpl.
  - split; [discriminate | intros [[] _]].
  - destruct (max_opt l) as [z|] eqn:E.
    + specialize (IH z). destruct (proj1 IH eq_refl) as [Hz Hle]. split.
      * intros H. injection H as <-. split.
        -- destruct (Z.max_spec y z) as [[_ ->]|[_ ->]]; [right; exact Hz | left; reflexivity].
        -- intros x [<-|Hx]; [lia|]. specialize (Hle x Hx). lia.
      * intros [Hm Hall]. f_equal.
        assert (z <= m) by (apply Hall; right; exact Hz).
        assert (y <= m) by (apply Hall; left; reflexivity).
        destruct Hm as [<-|Hm]; [lia|]. specialize (Hle m Hm). lia.
    + apply max_opt_none in E. subst l. split.
      * intros H. injection H as <-. split; [left; reflexivity|]. intros x [<-|[]]; lia.
      * intros [[<-|[]] _]. reflexivity.
Qed.

Lemma max_opt_same l1 l2 :
  (forall v, In v l1 <-> In v l2) -> max_opt l1 = max_opt l2.
Proof.
  intros Heq. destruct (max_opt l1) as [m|] eqn:E1.
  - apply max_opt_some in E1. destruct E1 as [Hm Hall]. symmetry. apply max_opt_some.
    split; [apply Heq; exact Hm|]. intros x Hx. apply Hall, Heq, Hx.
  - apply max_opt_none in E1. subst l1. symmetry. apply max_opt_none.
    destruct l2 as [|x l2]; [reflexivity|]. exfalso. apply (proj2 (Heq x)). left. reflexivity.
Qed.

Lemma add_days_ok d n r : add_days d n = Ok r -> r = d + n /\ 1 <= r <= MAXORDINAL.
Proof.
  unfold add_days. intros Hr.
  destruct (Z.leb_spec 1 (d + n)) as [H1|H1]; destruct (Z.leb_spec (d + n) MAXORDINAL) as [H2|H2];
    simpl in Hr; inversion Hr; subst; lia.
Qed.

Lemma add_days_in d n : 1 <= d + n <= MAXORDINAL -> add_days d n = Ok (d + n).
Proof.
  intros H. unfold add_days.
  destruct (Z.leb_spec 1 (d + n)) as [H1|H1]; destruct (Z.leb_spec (d + n) MAXORDINAL) as [H2|H2];
    simpl; first [reflexivity | lia].
Qed.

Lemma consumption_loop_ok c line spd s dates B :
  consumption_loop c line spd s dates = Ok B ->
  map Consumption.end_period_date B = map (fun o => o - 1) dates
  /\ Forall (fun x => Consumption.contract_line x = line) B
  /\ Forall (fun o => 2 <= o <= MAXORDINAL) dates.
Proof.
  revert s B. induction dates as [|o rest IH]; intros s B H.
  - simpl in H. injection H as <-. repeat split; constructor.
  - cbn [consumption_loop] in H.
    destruct (add_days o (-1)) as [date|err] eqn:E1; cbn [bind] in H; [|discriminate].
    apply add_days_ok in E1. destruct E1 as [-> Hd].
    destruct (match ls_last_invoice_date s with Some li => _ | None => _ end)
      as [inv|err]; cbn [bind] in H; [|discriminate].
    destruct (ls_last_consumption_date s); cbn [bind] in H;
      (destruct (add_days (o + -1) 1) as [d'|err] eqn:E2; cbn [bind] in H; [|discriminate]);
      apply add_days_ok in E2; destruct E2 as [-> Hd'];
      (destruct (consumption_loop _ _ _ _ rest) as [B'|err] eqn:E3; cbn [bind] in H;
         [|discriminate]);
      injection H as <-; destruct (IH _ _ E3) as (H1 & H2 & H3);
      (split; [cbn [map]; rewrite H1; reflexivity|]);
      (split; [constructor; [reflexivity | exact H2] | constructor; [lia | exact H3]]).
Qed.

Lemma line_consumptions_inv c table b l B :
  line_consumptions c table b l = Ok B ->
  exists r start0 lcd D,
    rrule_of c = Ok r
    /\ ((last_consumption_date table l = None
         /\ start0 = Contract.start_period_date c /\ lcd = None)
        \/ (exists e, last_consumption_date table l = Some e
                      /\ start0 = e + 2 /\ lcd = Some (e + 1)))
    /\ between r start0 b = Ok D
    /\ consumption_loop c l (Contract.start_period_date c)
         {| ls_start := start0;
            ls_last_invoice_date := last_consumption_invoice_date table l;
            ls_last_consumption_date := lcd |}
         D = Ok B.
Proof.
  unfold line_consumptions, todatetime. intros H.
  destruct (last_consumption_date table l) as [e|] eqn:Ee; cbn [bind] in H.
  - destruct (add_days e 1) as [x|err] eqn:E1; cbn [bind] in H; [|discriminate].
    destruct (add_days x 1) as [y|err] eqn:E2; cbn [bind] in H; [|discriminate].
    apply add_days_ok in E1. apply add_days_ok in E2. destruct E1 as [-> _]. destruct E2 as [-> _].
    destruct (rrule_of c) as [r|err]; cbn [bind] in H; [|discriminate].
    destruct (between r _ b) as [D|err] eqn:ED; cbn [bind] in H; [|discriminate].
    exists r, (e + 1 + 1), (Some (e + 1)), D. split; [reflexivity|].
    split; [|split; [exact ED | exact H]].
    right. exists e. split; [reflexivity | split; [lia | reflexivity]].
  - destruct (rrule_of c) as [r|err]; cbn [bind] in H; [|discriminate].
    destruct (between r _ b) as [D|err] eqn:ED; cbn [bind] in H; [|discriminate].
    exists r, (Contract.start_period_date c), None, D. split; [reflexivity|].
    split; [|split; [exact ED | exact H]].
    left. auto.
Qed.

Lemma line_consumptions_resume_empty c table b l r e :
  rrule_of c = Ok r -> last_consumption_date table l = Some e ->
  1 <= e + 1 -> e + 2 <= MAXORDINAL -> between r (e + 2) b = Ok [] ->
  line_consumptions c table b l = Ok [].
Proof.
  intros Hr He H1 H2 Hb. unfold line_consumptions, todatetime. rewrite He. cbn [bind].
  rewrite (add_days_in e 1) by lia. cbn [bind].
  rewrite (add_days_in (e + 1) 1) by lia. cbn [bind]. rewrite Hr. cbn [bind].
  replace (e + 1 + 1) with (e + 2) by lia. rewrite Hb. reflexivity.
Qed.

Lemma line_consumptions_same c t1 t2 b l :
  last_consumption_date t1 l = last_consumption_date t2 l ->
  line_consumptions c t1 b l = line_consumptions c t2 b l.
Proof.
  unfold line_consumptions, last_consumption_invoice_date, last_consumption_date.
  intros H. rewrite H. reflexivity.
Qed.

Lemma mapM_Forall2 {A B} (f : A -> result B) l bs :
  mapM f l = Ok bs -> Forall2 (fun x y => f x = Ok y) l bs.
Proof.
  revert bs. induction l as [|x l IH]; intros bs H; simpl in H.
  - injection H as <-. constructor.
  - destruct (f x) as [y|err] eqn:E; cbn [bind] in H; [|discriminate].
    destruct (mapM f l) as [ys|err]; cbn [bind] in H; [|discriminate].
    injection H as <-. constructor; [exact E | apply IH; reflexivity].
Qed.

Lemma mapM_all_nil {A B} (f : A -> result (list B)) l :
  (forall x, In x l -> f x = Ok []) -> exists bs, mapM f l = Ok bs /\ List.concat bs = [].
Proof.
  induction l as [|x l IH]; intros H; [exists []; split; reflexivity|].
  destruct IH as (bs & Hbs & Hc); [intros y Hy; apply H; right; exact Hy|].
  exists ([] :: bs). simpl. rewrite (H x (or_introl eq_refl)). cbn [bind].
  rewrite Hbs. split; [reflexivity | exact Hc].
Qed.

Lemma Forall2_concat_in {A B} (P : A -> list B -> Prop) l bs x :
  Forall2 P l bs -> In x (List.concat bs) -> exists a b, In a l /\ P a b /\ In x b.
Proof.
  induction 1 as [|a b l bs Hab _ IH]; simpl; [contradiction|].
  intros Hx. apply in_app_or in Hx. destruct Hx as [Hx|Hx].
  - exists a, b. auto.
  - destruct (IH Hx) as (a' & b' & H1 & H2 & H3). exists a', b'. auto.
Qed.

Lemma Forall2_in_l {A B} (P : A -> B -> Prop) l bs a :
  Forall2 P l bs -> In a l -> exists b, P a b /\ In b bs.
Proof.
  induction 1 as [|a' b l bs Hab _ IH]; simpl; [contradiction|].
  intros [<-|Ha]; [exists b; auto|]. destruct (IH Ha) as (b' & H1 & H2). exists b'. auto.
Qed.

Lemma consumptions_of_app t1 t2 l :
  consumptions_of (t1 ++ t2) l = consumptions_of t1 l ++ consumptions_of t2 l.
Proof. apply filter_app. Qed.

Lemma create_consumptions_end_periods n cs l :
  map Consumption.end_period_date (consumptions_of (create_consumptions n cs) l)
  = map Consumption.end_period_date (consumptions_of cs l).
Proof.
  revert n. induction cs as [|x cs IH]; intros n; simpl; [reflexivity|].
  unfold consumptions_of in *. simpl.
  destruct (Nat.eqb (Consumption.contract_line x) l); simpl; rewrite IH; reflexivity.
Qed.

Lemma line_consumptions_lines c table b l B :
  line_consumptions c table b l = Ok B ->
  Forall (fun x => Consumption.contract_line x = l) B.
Proof.
  intros H. destruct (line_consumptions_inv _ _ _ _ _ H) as (r & s0 & lcd & D & _ & _ & _ & Hl).
  apply consumption_loop_ok in Hl. tauto.
Qed.

Lemma get_consumptions_inv today c table b bl :
  get_consumptions today c table (Some b) = Ok bl ->
  exists blocks, Forall2 (fun l B => line_consumptions c table b l = Ok B)
                   (Contract.lines c) blocks
                 /\ bl = List.concat blocks.
Proof.
  unfold get_consumptions, todatetime. intros H.
  destruct (mapM _ _) as [blocks|err] eqn:E; cbn [bind] in H; [|discriminate].
  injection H as <-. exists blocks. split; [apply mapM_Forall2; exact E | reflexivity].
Qed.

(** One run of the generator over one line: the end-of-period dates it
    leaves on the line are those it had plus those of the created block,
    and a second run over the same line from there creates nothing. *)
Lemma line_consumptions_rerun c table table' b l B :
  b <= MAXORDINAL ->
  line_consumptions c table b l = Ok B ->
  (forall v, In v (map Consumption.end_period_date (consumptions_of table' l))
             <-> In v (map Consumption.end_period_date (consumptions_of table l))
                 \/ In v (map Consumption.end_period_date B)) ->
  line_consumptions c table' b l = Ok [].
Proof.
  intros Hb H Hset.
  destruct (line_consumptions_inv _ _ _ _ _ H) as (r & s0 & lcd & D & Hr & Hcase & HD & Hl).
  unfold between in HD. destruct (occurrences r b) as [occ|err] eqn:Eocc; cbn [bind] in HD;
    [|discriminate]. injection HD as HD.
  destruct D as [|o D'].
  - cbn [consumption_loop] in Hl. injection Hl as <-.
    rewrite <- H. apply line_consumptions_same.
    unfold last_consumption_date, get_last_consumption_date. apply max_opt_same.
    intros v. rewrite Hset. simpl. tauto.
  - destruct (consumption_loop_ok _ _ _ _ _ _ Hl) as (Hends & _ & Hbnd).
    assert (Hhead : s0 < o).
    { exact (between_loop_head _ _ _ _ _ HD). }
    destruct (max_opt (o :: D')) as [M|] eqn:EM;
      [|apply max_opt_none in EM; discriminate].
    apply max_opt_some in EM. destruct EM as [HM HallM].
    assert (HoM : o <= M) by (apply HallM; left; reflexivity).
    assert (HMb : M < b).
    { apply (take_below_lt b occ).
      apply (between_loop_sub s0 b false). rewrite HD. exact HM. }
    assert (HM2 : 2 <= M) by (rewrite Forall_forall in Hbnd; apply (Hbnd M HM)).
    assert (Hlast : last_consumption_date table' l = Some (M - 1)).
    { unfold last_consumption_date, get_last_consumption_date. apply max_opt_some. split.
      - apply Hset. right. rewrite Hends. apply in_map_iff. exists M. auto.
      - intros x Hx. apply Hset in Hx. destruct Hx as [Hx|Hx].
        + destruct Hcase as [(Hn & _ & _)|(e & He & Hs0 & _)].
          * unfold last_consumption_date, get_last_consumption_date in Hn.
            apply max_opt_none in Hn. rewrite Hn in Hx. contradiction.
          * unfold last_consumption_date, get_last_consumption_date in He.
            apply max_opt_some in He. destruct He as [_ He]. specialize (He x Hx). lia.
        + rewrite Hends in Hx. apply in_map_iff in Hx. destruct Hx as (y & <- & Hy).
          specialize (HallM y Hy). lia. }
    apply (line_consumptions_resume_empty c table' b l r (M - 1)); [exact Hr | exact Hlast | lia | lia |].
    unfold between. rewrite Eocc. cbn [bind]. f_equal. apply between_loop_none. intros x Hx.
    destruct (between_loop_cover s0 b _ x Hx) as [Hx'|Hx']; [lia|].
    rewrite HD in Hx'. specialize (HallM x Hx'). lia.
Qed.

(** The end-of-period dates that a [consume] run adds to a line are those
    of the line's block, when the line belongs to one contract only. *)
Lemma consume_line_ends today cs table b to_create c l B :
  (forall c1 c2 l, In c1 cs -> In c2 cs -> In l (Contract.lines c1) ->
                   In l (Contract.lines c2) -> c1 = c2) ->
  Forall2 (fun c bl => get_consumptions today c table (Some b) = Ok bl) cs to_create ->
  In c cs -> In l (Contract.lines c) ->
  line_consumptions c table b l = Ok B ->
  forall v, In v (map Consumption.end_period_date (consumptions_of (List.concat to_create) l))
            <-> In v (map Consumption.end_period_date B).
Proof.
  intros Huniq Hall Hc Hl HB v. split.
  - intros Hv. apply in_map_iff in Hv. destruct Hv as (x & <- & Hx).
    unfold consumptions_of in Hx. apply filter_In in Hx. destruct Hx as [Hx Hxl].
    apply Nat.eqb_eq in Hxl.
    destruct (Forall2_concat_in _ _ _ _ Hall Hx) as (c' & bl & Hc' & Hbl & Hxbl).
    destruct (get_consumptions_inv _ _ _ _ _ Hbl) as (blocks & Hblocks & ->).
    destruct (Forall2_concat_in _ _ _ _ Hblocks Hxbl) as (l' & B' & Hl' & HB' & HxB').
    pose proof (line_consumptions_lines _ _ _ _ _ HB') as Hlines.
    rewrite Forall_forall in Hlines. specialize (Hlines x HxB').
    assert (l' = l) as -> by congruence.
    assert (c' = c) as -> by (apply (Huniq c' c l); assumption).
    rewrite HB in HB'. injection HB' as <-. apply in_map. exact HxB'.
  - intros Hv. apply in_map_iff in Hv. destruct Hv as (x & <- & Hx).
    pose proof (line_consumptions_lines _ _ _ _ _ HB) as Hlines.
    rewrite Forall_forall in Hlines.
    destruct (Forall2_in_l _ _ _ _ Hall Hc) as (bl & Hbl & Hblin).
    destruct (get_consumptions_inv _ _ _ _ _ Hbl) as (blocks & Hblocks & ->).
    destruct (Forall2_in_l _ _ _ _ Hblocks Hl) as (B' & HB' & HB'in).
    rewrite HB in HB'. injection HB' as <-.
    apply in_map. unfold consumptions_of. apply filter_In. split.
    + apply in_concat. exists (List.concat blocks). split; [exact Hblin|].
      apply in_concat. exists B. auto.
    + apply Nat.eqb_eq. apply Hlines. exact Hx.
Qed.

(** ** C5 *)

(** C5: when each contract line belongs to one contract of the list, a
    second [consume] with the same date over the table the first one left
    creates nothing, so in particular no consumption that duplicates one
    the first run created. *)
Theorem C5_consume_idempotent today cs table table' created d :
  (forall c1 c2 l, In c1 cs -> In c2 cs -> In l (Contract.lines c1) ->
                   In l (Contract.lines c2) -> c1 = c2) ->
  consume today cs table (Some d) = Ok (table', created) ->
  consume today cs table' (Some d) = Ok (table', []).
Proof.
  intros Huniq H. unfold consume in *.
  destruct (add_days d 1) as [b|err] eqn:Eb; cbn [bind] in *; [|discriminate].
  destruct (mapM _ cs) as [to_create|err] eqn:Em; cbn [bind] in H; [|discriminate].
  injection H as <- <-.
  apply add_days_ok in Eb. destruct Eb as [_ Hb].
  apply mapM_Forall2 in Em.
  destruct (mapM_all_nil (fun c => get_consumptions today c
                                     (table ++ create_consumptions (next_id table)
                                                 (List.concat to_create)) (Some b)) cs)
    as (bs & Hbs & Hnil).
  - intros c Hc. unfold get_consumptions, todatetime.
    destruct (mapM_all_nil (line_consumptions c
                              (table ++ create_consumptions (next_id table)
                                          (List.concat to_create)) b) (Contract.lines c))
      as (blocks & Hblocks & Hn).
    + intros l Hl.
      destruct (Forall2_in_l _ _ _ _ Em Hc) as (bl & Hbl & _).
      destruct (get_consumptions_inv _ _ _ _ _ Hbl) as (blocks & Hblocks & _).
      destruct (Forall2_in_l _ _ _ _ Hblocks Hl) as (B & HB & _).
      apply (line_consumptions_rerun c table _ b l B); [lia | exact HB |].
      intros v. unfold consumptions_of. rewrite filter_app, map_app, in_app_iff.
      fold (consumptions_of (create_consumptions (next_id table) (List.concat to_create)) l).
      rewrite create_consumptions_end_periods.
      rewrite (consume_line_ends today cs table b to_create c l B Huniq Em Hc Hl HB).
      reflexivity.
    + rewrite Hblocks. cbn [bind]. rewrite Hn. reflexivity.
  - rewrite Hbs. cbn [bind]. rewrite Hnil. simpl. rewrite app_nil_r. reflexivity.
Qed.

Lemma C5_consume_idempotent_witness :
  consume 0 [ex_contract] [] (Some (ymd2ord 2020 3 31)) = Ok (ex_q1_run, ex_q1_run)
  /\ consume 0 [ex_contract] ex_q1_run (Some (ymd2ord 2020 3 31)) = Ok (ex_q1_run, []).
Proof.
  split; [vm_compute; reflexivity|].
  apply (C5_consume_idempotent 0 [ex_contract] [] ex_q1_run ex_q1_run (ymd2ord 2020 3 31)).
  - intros c1 c2 l [<-|[]] [<-|[]] _ _. reflexivity.
  - vm_compute. reflexivity.
Defined.

(** ** Invoice dates along a run *)

Lemma consumption_loop_invoice_dates c line spd s dates B :
  consumption_loop c line spd s dates = Ok B ->
  (forall i x y, nth_error B i = Some x -> nth_error B (S i) = Some y ->
     get_invoice_date c (Consumption.invoice_date x) = Ok (Consumption.invoice_date y))
  /\ (forall x, hd_error B = Some x ->
        match ls_last_invoice_date s with
        | Some li => get_invoice_date c li = Ok (Consumption.invoice_date x)
        | None => Consumption.invoice_date x
                  = match Contract.first_invoice_date c with
                    | Some f => f
                    | None => Consumption.end_date x
                    end
        end).
Proof.
  revert s B. induction dates as [|o rest IH]; intros s B H.
  - simpl in H. injection H as <-. split; [intros [|i] x y Hx; discriminate | discriminate].
  - cbn [consumption_loop] in H.
    destruct (add_days o (-1)) as [date|err]; cbn [bind] in H; [|discriminate].
    destruct (ls_last_invoice_date s) as [li|] eqn:Eli.
    + destruct (get_invoice_date c li) as [inv|err] eqn:Einv; cbn [bind] in H; [|discriminate].
      destruct (ls_last_consumption_date s); cbn [bind] in H;
        (destruct (add_days date 1) as [d'|err]; cbn [bind] in H; [|discriminate]);
        (destruct (consumption_loop _ _ _ _ rest) as [B'|err] eqn:E3; cbn [bind] in H;
           [|discriminate]);
        injection H as <-; destruct (IH _ _ E3) as [Hch Hhd]; cbn [ls_last_invoice_date] in Hhd;
        (split; [|intros x Hx; injection Hx as <-; reflexivity]);
        (intros [|i] x y Hx Hy; cbn [nth_error] in Hx, Hy;
         [injection Hx as <-; apply Hhd; destruct B'; [discriminate | exact Hy]
         | exact (Hch i x y Hx Hy)]).
    + cbn [bind] in H.
      destruct (ls_last_consumption_date s); cbn [bind] in H;
        (destruct (add_days date 1) as [d'|err]; cbn [bind] in H; [|discriminate]);
        (destruct (consumption_loop _ _ _ _ rest) as [B'|err] eqn:E3; cbn [bind] in H;
           [|discriminate]);
        injection H as <-; destruct (IH _ _ E3) as [Hch Hhd]; cbn [ls_last_invoice_date] in Hhd;
        (split; [|intros x Hx; injection Hx as <-; reflexivity]);
        (intros [|i] x y Hx Hy; cbn [nth_error] in Hx, Hy;
         [injection Hx as <-; apply Hhd; destruct B'; [discriminate | exact Hy]
         | exact (Hch i x y Hx Hy)]).
Qed.

(** ** C8 *)

(** Tuples compare as a total order. *)
Lemma lex_compare_eq a b : lex_compare a b = Eq <-> a = b.
Proof.
  revert b. induction a as [|x a IH]; intros [|y b]; simpl;
    try (split; [discriminate | intros H; discriminate H]); [split; reflexivity|].
  destruct (Z.compare_spec x y) as [->|Hxy|Hxy].
  - rewrite IH. split; [intros ->; reflexivity | intros H; injection H as ->; reflexivity].
  - split; [discriminate | intros H; injection H as -> ->; lia].
  - split; [discriminate | intros H; injection H as -> ->; lia].
Qed.

Lemma lex_compare_antisym a b : lex_compare b a = CompOpp (lex_compare a b).
Proof.
  revert b. induction a as [|x a IH]; intros [|y b]; simpl; try reflexivity.
  rewrite (Z.compare_antisym x y). destruct (x ?= y); simpl; auto.
Qed.

Lemma lex_compare_lt_trans a b c :
  lex_compare a b = Lt -> lex_compare b c = Lt -> lex_compare a c = Lt.
Proof.
  revert b c. induction a as [|x a IH]; intros [|y b] [|z c]; simpl;
    try discriminate; try reflexivity.
  destruct (Z.compare_spec x y) as [Hxy|Hxy|Hxy];
    destruct (Z.compare_spec y z) as [Hyz|Hyz|Hyz];
    destruct (Z.compare_spec x z) as [Hxz|Hxz|Hxz];
    try lia; intros H1 H2; try discriminate; try reflexivity; eauto.
Qed.

Lemma lex_compare_le_lt a b c :
  lex_compare a b <> Gt -> lex_compare b c = Lt -> lex_compare a c = Lt.
Proof.
  intros H1 H2. destruct (lex_compare a b) eqn:E.
  - apply lex_compare_eq in E. subst. exact H2.
  - exact (lex_compare_lt_trans _ _ _ E H2).
  - contradiction.
Qed.

Lemma lex_compare_refl a : lex_compare a a = Eq.
Proof. apply lex_compare_eq. reflexivity. Qed.

Lemma gkey_enc_inj k1 k2 : gkey_enc k1 = gkey_enc k2 -> k1 = k2.
Proof.
  destruct k1 as [[[[p co] cu] ty] dt], k2 as [[[[p' co'] cu'] ty'] dt']; simpl.
  intros H. injection H as Hp Hco Hcu Hty Hdt.
  apply Nat2Z.inj in Hp, Hco, Hcu. subst.
  destruct ty, ty'; simpl in Hty; try discriminate; reflexivity.
Qed.

Lemma Forall2_compose {A B C} (R1 : A -> B -> Prop) (R2 : B -> C -> Prop) l1 l2 l3 :
  Forall2 R1 l1 l2 -> Forall2 R2 l2 l3 -> Forall2 (fun a c => exists b, R1 a b /\ R2 b c) l1 l3.
Proof.
  intros H1. revert l3. induction H1 as [|a b l1 l2 Hab _ IH]; intros l3 H2;
    inversion H2; subst; constructor; eauto.
Qed.

Lemma Forall2_in_r {A B} (P : A -> B -> Prop) l bs b :
  Forall2 P l bs -> In b bs -> exists a, P a b /\ In a l.
Proof.
  induction 1 as [|a b' l bs Hab _ IH]; simpl; [contradiction|].
  intros [<-|Hb]; [exists a; auto|]. destruct (IH Hb) as (a' & H1 & H2). exists a'. auto.
Qed.

Lemma Forall2_map_eq {A B C} (f : A -> C) (g : B -> C) l1 l2 :
  Forall2 (fun a b => f a = g b) l1 l2 -> map f l1 = map g l2.
Proof. induction 1; simpl; f_equal; assumption. Qed.

Lemma NoDup_map_in_eq {A B} (f : A -> B) l x y :
  NoDup (map f l) -> In x l -> In y l -> f x = f y -> x = y.
Proof.
  induction l as [|a l IH]; simpl; [contradiction|].
  intros Hnd Hx Hy Hf. apply NoDup_cons_iff in Hnd. destruct Hnd as [Hn Hnd].
  destruct Hx as [<-|Hx], Hy as [<-|Hy]; auto; exfalso; apply Hn.
  - rewrite Hf. apply in_map. exact Hy.
  - rewrite <- Hf. apply in_map. exact Hx.
Qed.

Lemma NoDup_concat_piece {A B} (f : A -> B) L x :
  NoDup (map f (List.concat L)) -> In x L -> NoDup (map f x).
Proof.
  induction L as [|y L IH]; simpl; [contradiction|]. rewrite map_app.
  intros Hnd [<-|Hx].
  - exact (NoDup_app_remove_r _ _ Hnd).
  - apply IH; [exact (NoDup_app_remove_l _ _ Hnd) | exact Hx].
Qed.

Section SortGroupFacts.
Context {A K : Type} (enc : K -> list Z) (kf : A -> K).

Lemma insert_by_perm x l : Permutation (insert_by enc kf x l) (x :: l).
Proof.
  induction l as [|y l IH]; simpl; [reflexivity|].
  destruct (lex_ltb _ _); [reflexivity|].
  rewrite IH. apply perm_swap.
Qed.

Lemma sorted_by_perm l : Permutation (sorted_by enc kf l) l.
Proof.
  unfold sorted_by.
  assert (G : forall acc, Permutation (fold_left (fun acc x => insert_by enc kf x acc) l acc)
                                      (l ++ acc)).
  { induction l as [|x l IH]; intros acc; simpl; [reflexivity|].
    rewrite IH, insert_by_perm. symmetry. apply Permutation_middle. }
  rewrite G. rewrite app_nil_r. reflexivity.
Qed.

Lemma insert_by_hd y x l :
  lex_compare (enc (kf y)) (enc (kf x)) <> Gt ->
  HdRel (fun a b => lex_compare (enc (kf a)) (enc (kf b)) <> Gt) y l ->
  HdRel (fun a b => lex_compare (enc (kf a)) (enc (kf b)) <> Gt) y (insert_by enc kf x l).
Proof.
  intros Hyx Hl. destruct l as [|z l]; simpl; [constructor; exact Hyx|].
  destruct (lex_ltb _ _); constructor; [exact Hyx|]. inversion Hl. assumption.
Qed.

Lemma insert_by_sorted x l :
  Sorted (fun a b => lex_compare (enc (kf a)) (enc (kf b)) <> Gt) l ->
  Sorted (fun a b => lex_compare (enc (kf a)) (enc (kf b)) <> Gt) (insert_by enc kf x l).
Proof.
  induction l as [|y l IH]; simpl; intros Hs; [repeat constructor|].
  unfold lex_ltb. destruct (lex_compare (enc (kf x)) (enc (kf y))) eqn:E.
  - apply Sorted_inv in Hs. destruct Hs as [Hs Hhd]. constructor; [apply IH; exact Hs|].
    apply insert_by_hd; [|exact Hhd]. rewrite lex_compare_antisym, E. discriminate.
  - constructor; [exact Hs|]. constructor. rewrite E. discriminate.
  - apply Sorted_inv in Hs. destruct Hs as [Hs Hhd]. constructor; [apply IH; exact Hs|].
    apply insert_by_hd; [|exact Hhd]. rewrite lex_compare_antisym, E. discriminate.
Qed.

Lemma sorted_by_sorted l :
  Sorted (fun a b => lex_compare (enc (kf a)) (enc (kf b)) <> Gt) (sorted_by enc kf l).
Proof.
  unfold sorted_by.
  assert (G : forall acc,
             Sorted (fun a b => lex_compare (enc (kf a)) (enc (kf b)) <> Gt) acc ->
             Sorted (fun a b => lex_compare (enc (kf a)) (enc (kf b)) <> Gt)
               (fold_left (fun acc x => insert_by enc kf x acc) l acc)).
  { induction l as [|x l IH]; intros acc Hacc; simpl; [exact Hacc|].
    apply IH. apply insert_by_sorted. exact Hacc. }
  apply G. constructor.
Qed.

Lemma groupby_concat l : List.concat (map snd (groupby enc kf l)) = l.
Proof.
  induction l as [|x l IH]; simpl; [reflexivity|].
  destruct (groupby enc kf l) as [|[k g] rest]; simpl in *.
  - subst l. reflexivity.
  - destruct (lex_eqb _ _); simpl; rewrite IH; reflexivity.
Qed.

Lemma groupby_head x l : exists g rest, groupby enc kf (x :: l) = (kf x, x :: g) :: rest.
Proof.
  simpl. destruct (groupby enc kf l) as [|[k g] rest].
  - exists [], []. reflexivity.
  - destruct (lex_eqb _ _); eexists; eexists; reflexivity.
Qed.

Lemma groupby_keys l :
  Forall (fun kg => snd kg <> [] /\ Forall (fun a => enc (kf a) = enc (fst kg)) (snd kg))
    (groupby enc kf l).
Proof.
  induction l as [|x l IH]; simpl; [constructor|].
  destruct (groupby enc kf l) as [|[k g] rest].
  - repeat constructor. discriminate.
  - inversion IH as [|kg' rest' [Hne Hg] Hrest]; subst. simpl in Hne, Hg.
    unfold lex_eqb. destruct (lex_compare (enc (kf x)) (enc k)) eqn:E.
    + apply lex_compare_eq in E. constructor; [|exact Hrest]. simpl. split; [discriminate|].
      constructor; [reflexivity|]. rewrite E. exact Hg.
    + constructor; [simpl; split; [discriminate | repeat constructor] | exact IH].
    + constructor; [simpl; split; [discriminate | repeat constructor] | exact IH].
Qed.

Lemma groupby_sorted l :
  Sorted (fun a b => lex_compare (enc (kf a)) (enc (kf b)) <> Gt) l ->
  Sorted (fun g1 g2 => lex_compare (enc (fst g1)) (enc (fst g2)) = Lt) (groupby enc kf l).
Proof.
  induction l as [|x l IH]; intros Hs; simpl; [constructor|].
  apply Sorted_inv in Hs. destruct Hs as [Hs Hhd]. specialize (IH Hs).
  destruct l as [|y l']; [simpl; repeat constructor|].
  destruct (groupby_head y l') as (g & rest & Hgy). rewrite Hgy in IH |- *.
  inversion Hhd as [|b l0 Hxy]; subst.
  unfold lex_eqb. destruct (lex_compare (enc (kf x)) (enc (kf y))) eqn:E.
  - apply lex_compare_eq in E. apply Sorted_inv in IH. destruct IH as [IHs IHhd].
    constructor; [exact IHs|]. destruct rest as [|g2 rest]; constructor.
    inversion IHhd. simpl in *. rewrite E. assumption.
  - constructor; [exact IH|]. constructor. exact E.
  - contradiction.
Qed.

Lemma sorted_keys_nodup (gs : list (K * list A)) :
  Sorted (fun g1 g2 => lex_compare (enc (fst g1)) (enc (fst g2)) = Lt) gs ->
  NoDup (map (fun g => enc (fst g)) gs).
Proof.
  intros Hs. apply Sorted_StronglySorted in Hs.
  - induction Hs as [|g gs Hs IH Hall]; simpl; constructor; [|exact IH].
    intros Hin. apply in_map_iff in Hin. destruct Hin as (g' & Heq & Hg').
    rewrite Forall_forall in Hall. specialize (Hall g' Hg'). simpl in Hall.
    rewrite Heq, lex_compare_refl in Hall. discriminate.
  - intros g1 g2 g3. apply lex_compare_lt_trans.
Qed.
End SortGroupFacts.

Lemma dict_set_new {V : Type} k (v : V) dct :
  ~ In k (map fst dct) -> dict_set k v dct = dct ++ [(k, v)].
Proof.
  induction dct as [|[k' v'] dct IH]; simpl; [reflexivity|].
  intros H. destruct (Nat.eqb_spec k k') as [->|Hne]; [exfalso; apply H; left; reflexivity|].
  rewrite IH; [reflexivity|]. intros Hin. apply H. right. exact Hin.
Qed.

Lemma lookup_ids ids cs l :
  Forall2 (fun i c => lookup Consumption.id l i = Ok c) ids cs ->
  map Consumption.id cs = ids.
Proof.
  induction 1 as [|i c ids cs Hic _ IH]; simpl; [reflexivity|].
  rewrite IH, (lookup_id _ _ _ _ Hic). reflexivity.
Qed.

(** The first loop of [invoice]: over consumptions with distinct ids it
    saves one invoice line per consumption, under a fresh id, and keys it
    by the consumption's id. *)
Lemma invoice_lines_loop_spec e d cs lines tw d' lines' tw' :
  NoDup (map Consumption.id cs) ->
  (forall c, In c cs -> ~ In (Consumption.id c) (map fst lines)) ->
  invoice_lines_loop e d cs lines tw = Ok (d', lines', tw') ->
  exists news,
    lines' = lines ++ news
    /\ Forall2 (fun c it => fst it = Consumption.id c
                 /\ exists l0, get_invoice_line e d c = Ok l0
                              /\ snd it = set_line_id l0 (InvoiceLine.id (snd it)) None)
         cs news
    /\ NoDup (map (fun it => InvoiceLine.id (snd it)) news)
    /\ Forall (fun it => ~ In (InvoiceLine.id (snd it)) (map InvoiceLine.id (db_invoice_lines d)))
         news
    /\ db_consumptions d' = db_consumptions d.
Proof.
  revert d lines tw. induction cs as [|c cs IH]; intros d lines tw Hnd Hfresh H.
  - simpl in H. injection H as <- <- <-. exists []. rewrite app_nil_r.
    split; [reflexivity|]. split; [constructor|]. split; [constructor|].
    split; [constructor | reflexivity].
  - cbn [invoice_lines_loop] in H.
    destruct (get_invoice_line e d c) as [l0|err] eqn:El; cbn [bind] in H; [|discriminate].
    cbn [map] in Hnd. apply NoDup_cons_iff in Hnd. destruct Hnd as [Hc Hnd].
    assert (Hk : ~ In (Consumption.id c) (map fst lines)) by (apply Hfresh; left; reflexivity).
    rewrite (dict_set_new _ _ _ Hk) in H.
    apply IH in H; [|exact Hnd|].
    2:{ intros c' Hc'. rewrite map_app, in_app_iff. simpl. intros [H1|[H2|[]]].
        - exact (Hfresh c' (or_intror Hc') H1).
        - apply Hc. rewrite H2. apply in_map. exact Hc'. }
    destruct H as (news1 & Hl & HF & HN & Hfr & Hcs).
    exists ((Consumption.id c, set_line_id l0 (next_line_id d) None) :: news1).
    split; [rewrite Hl, <- app_assoc; reflexivity|].
    split; [constructor; [split; [reflexivity | exists l0; split; [exact El | reflexivity]]
                         | exact HF]|].
    split; [|split; [|exact Hcs]].
    + constructor; [|exact HN]. intros Hin. apply in_map_iff in Hin.
      destruct Hin as (it & Heq & Hit). rewrite Forall_forall in Hfr. apply (Hfr it Hit).
      cbn [db_invoice_lines]. rewrite map_app, in_app_iff. right. left. symmetry. exact Heq.
    + constructor; [apply next_line_id_fresh|].
      eapply Forall_impl; [|exact Hfr]. intros it Hit Hin. apply Hit.
      cbn [db_invoice_lines]. rewrite map_app, in_app_iff. left. exact Hin.
Qed.

Lemma get_invoice_key e d k v :
  get_invoice e d k = Ok v -> invoice_key v = k /\ Invoice.lines v = [].
Proof.
  destruct k as [[[[p co] cu] ty] dt]. unfold get_invoice.
  destruct (lookup _ _ _); cbn [bind]; intros H; [|discriminate].
  injection H as <-. split; reflexivity.
Qed.

Lemma create_invoices_keys_lines n vs :
  map (fun v => (invoice_key v, Invoice.lines v)) (create_invoices n vs)
  = map (fun v => (invoice_key v, Invoice.lines v)) vs.
Proof.
  revert n. induction vs as [|v vs IH]; intros n; simpl; [reflexivity|].
  rewrite IH. reflexivity.
Qed.

(** C8: invoicing a set of consumptions (distinct ids) saves one line per
    consumption, keyed by (party, company, currency, type) of the line and
    the consumption's invoice date, and creates one invoice per distinct
    key (the keys of the invoices are distinct and are exactly the keys of
    the lines), whose lines are exactly the lines with its key. *)
Theorem C8_invoice_groups e d ids d' invs :
  NoDup ids ->
  invoice e d ids = Ok (d', invs) ->
  exists items : list (gkey * (nat * InvoiceLine.t)),
    map (fun it => fst (snd it)) items = ids
    /\ (forall k cid l, In (k, (cid, l)) items ->
          exists cons l0,
            lookup Consumption.id (db_consumptions d) cid = Ok cons
            /\ get_invoice_line e d cons = Ok l0
            /\ l = set_line_id l0 (InvoiceLine.id l) None
            /\ k = (InvoiceLine.party l, InvoiceLine.company l, InvoiceLine.currency l,
                    InvoiceLine.invoice_type l, Consumption.invoice_date cons))
    /\ NoDup (map (fun it => InvoiceLine.id (snd (snd it))) items)
    /\ NoDup (map invoice_key invs)
    /\ (forall k, (exists it, In it items /\ fst it = k) <-> In k (map invoice_key invs))
    /\ (forall v, In v invs ->
          NoDup (Invoice.lines v)
          /\ forall i, In i (Invoice.lines v)
                       <-> exists it, In it items /\ fst it = invoice_key v
                                      /\ InvoiceLine.id (snd (snd it)) = i).
Proof.
  intros Hnd H. unfold invoice in H.
  destruct (mapM _ ids) as [cs|err] eqn:Ecs; cbn [bind] in H; [|discriminate].
  destruct (invoice_lines_loop e d cs [] []) as [[[d1 lines] tw]|err] eqn:El;
    cbn [bind] in H; [|discriminate].
  apply mapM_Forall2 in Ecs. pose proof (lookup_ids _ _ _ Ecs) as Hids.
  destruct (invoice_lines_loop_spec e d cs [] [] d1 lines tw) as (news & Hl & HF & HN & _ & Hcs1);
    [rewrite Hids; exact Hnd | intros c _ []| exact El|].
  simpl in Hl. subst lines.
  (* the consumptions, their saved lines, keyed by consumption id *)
  pose proof (Forall2_compose _ _ _ _ _ Ecs HF) as Hin.
  destruct news as [|it0 news0].
  - injection H as <- <-. exists [].
    inversion HF; subst. simpl.
    split; [reflexivity|]. split; [intros k cid l []|]. split; [constructor|].
    split; [constructor|]. split; [|intros v []].
    intros k. split; [intros (it & [] & _) | intros []].
  - cbv beta iota in H. remember (it0 :: news0) as news eqn:En. clear En.
    destruct (mapM _ news) as [dec|err] eqn:Edec; cbn [bind] in H; [|discriminate].
    set (groups := groupby gkey_enc fst (sorted_by gkey_enc fst dec)) in H.
    destruct (mapM _ groups) as [invs0|err] eqn:Einv; cbn [bind] in H; [|discriminate].
    injection H as <- <-.
    apply mapM_Forall2 in Edec, Einv.
    assert (Hdec : Forall2 (fun it x => snd x = it /\ group_invoice_key d1 it = Ok (fst x))
                     news dec).
    { eapply Forall2_impl; [|exact Edec]. intros it x Hx. cbv beta in Hx.
      destruct (group_invoice_key d1 it) as [k|err]; cbn [bind] in Hx; [|discriminate].
      injection Hx as <-. split; reflexivity. }
    assert (Hinv : map (fun v => (invoice_key v, Invoice.lines v))
                     (create_invoices (next_invoice_id d1) invs0)
                   = map (fun g => (fst g, map (fun x => InvoiceLine.id (snd (snd x))) (snd g)))
                       groups).
    { rewrite create_invoices_keys_lines. symmetry. apply Forall2_map_eq.
      eapply Forall2_impl; [|exact Einv]. intros g v Hv. cbv beta in Hv |- *.
      destruct (get_invoice e d1 (fst g)) as [v0|err] eqn:Ev; cbn [bind] in Hv; [|discriminate].
      injection Hv as <-. apply get_invoice_key in Ev. destruct Ev as [Hk Hl0].
      unfold invoice_key in *. cbn. rewrite Hl0. simpl. rewrite <- Hk. reflexivity. }
    set (invs := create_invoices (next_invoice_id d1) invs0) in *.
    (* facts on the groups *)
    pose proof (sorted_by_perm gkey_enc fst dec) as Hperm.
    pose proof (groupby_concat gkey_enc fst (sorted_by gkey_enc fst dec)) as Hconcat.
    fold groups in Hconcat.
    pose proof (groupby_keys gkey_enc fst (sorted_by gkey_enc fst dec)) as Hkeys.
    fold groups in Hkeys. rewrite Forall_forall in Hkeys.
    pose proof (sorted_keys_nodup gkey_enc (A := gkey * (nat * InvoiceLine.t)) groups
                  (groupby_sorted gkey_enc fst _ (sorted_by_sorted gkey_enc fst dec)))
      as Hgnd.
    assert (Hmem : forall it, In it dec <-> exists g, In g groups /\ In it (snd g)).
    { intros it.
      assert (Hpi : In it dec <-> In it (sorted_by gkey_enc fst dec))
        by (split; apply Permutation_in; [apply Permutation_sym|]; exact Hperm).
      rewrite Hpi, <- Hconcat. rewrite in_concat.
      split.
      - intros (x & Hx & Hit). apply in_map_iff in Hx. destruct Hx as (g & <- & Hg). eauto.
      - intros (g & Hg & Hit). exists (snd g). split; [apply in_map; exact Hg | exact Hit]. }
    assert (Hgkey : forall g it, In g groups -> In it (snd g) -> fst it = fst g).
    { intros g it Hg Hit. apply gkey_enc_inj. destruct (Hkeys g Hg) as [_ Hall].
      rewrite Forall_forall in Hall. exact (Hall it Hit). }
    assert (Hguniq : forall g g', In g groups -> In g' groups -> fst g = fst g' -> g = g').
    { intros g g' Hg Hg' Heq.
      apply (NoDup_map_in_eq (fun g => gkey_enc (fst g)) groups); auto.
      simpl. rewrite Heq. reflexivity. }
    assert (Hlids : NoDup (map (fun it => InvoiceLine.id (snd (snd it))) dec)).
    { replace (map (fun it => InvoiceLine.id (snd (snd it))) dec)
        with (map (fun it => InvoiceLine.id (snd it)) news); [exact HN|].
      symmetry. apply Forall2_map_eq. apply Forall2_flip.
      eapply Forall2_impl; [|exact Hdec]. intros it x [Hx _]. rewrite Hx. reflexivity. }
    exists dec. split; [|split; [|split; [exact Hlids|split; [|split]]]].
    + (* the items are the consumptions, in order *)
      rewrite <- Hids. symmetry. apply Forall2_map_eq.
      pose proof (Forall2_compose _ _ _ _ _ Hin Hdec) as H2.
      pose proof (Forall2_compose _ _ _ _ _ HF Hdec) as H3.
      eapply Forall2_impl; [|exact H3]. intros c x (it & [Hfst _] & [Hsnd _]).
      rewrite Hsnd. symmetry. exact Hfst.
    + (* each item's line and key *)
      intros k cid l Hx.
      pose proof (Forall2_compose _ _ _ _ _ Hin Hdec) as H2.
      destruct (Forall2_in_r _ _ _ _ H2 Hx) as (i & (it & (c & Hlk & Hfst & l0 & Hl0 & Hline)
                                                    & Hsnd & Hkey) & _).
      cbn [snd fst] in Hsnd, Hkey. subst it. cbn [fst snd] in Hfst, Hline.
      rewrite <- (lookup_id _ _ _ _ Hlk) in Hlk. rewrite <- Hfst in Hlk.
      exists c, l0. split; [exact Hlk|]. split; [exact Hl0|]. split; [exact Hline|].
      unfold group_invoice_key in Hkey. rewrite Hcs1, Hlk in Hkey. cbn [bind] in Hkey.
      injection Hkey as <-. reflexivity.
    + (* distinct invoice keys *)
      replace (map invoice_key invs) with (map fst (map (fun v => (invoice_key v, Invoice.lines v)) invs))
        by (rewrite map_map; reflexivity).
      rewrite Hinv, map_map. cbn [fst].
      apply (NoDup_map_inv gkey_enc). rewrite map_map. exact Hgnd.
    + (* the invoice keys are the item keys *)
      intros k.
      replace (map invoice_key invs) with (map fst (map (fun v => (invoice_key v, Invoice.lines v)) invs))
        by (rewrite map_map; reflexivity).
      rewrite Hinv, map_map. cbn [fst]. split.
      * intros (it & Hit & <-). apply Hmem in Hit. destruct Hit as (g & Hg & Hit).
        rewrite (Hgkey g it Hg Hit). apply in_map. exact Hg.
      * intros Hk. apply in_map_iff in Hk. destruct Hk as (g & <- & Hg).
        destruct (Hkeys g Hg) as [Hne _]. destruct (snd g) as [|it rest] eqn:Eg; [contradiction|].
        exists it. split.
        -- apply Hmem. exists g. rewrite Eg. split; [exact Hg | left; reflexivity].
        -- apply Hgkey; [exact Hg | rewrite Eg; left; reflexivity].
    + (* the lines of each invoice *)
      intros v Hv.
      assert (Hv' : In (invoice_key v, Invoice.lines v)
                      (map (fun g => (fst g, map (fun x => InvoiceLine.id (snd (snd x))) (snd g)))
                         groups))
        by (rewrite <- Hinv; apply (in_map (fun v => (invoice_key v, Invoice.lines v))); exact Hv).
      apply in_map_iff in Hv'. destruct Hv' as (g & Heq & Hg). injection Heq as Hk Hls.
      rewrite <- Hls, <- Hk. split.
      * apply (NoDup_concat_piece (fun x => InvoiceLine.id (snd (snd x))) (map snd groups)).
        -- rewrite Hconcat. apply (Permutation_NoDup (Permutation_map _ (Permutation_sym Hperm))).
           exact Hlids.
        -- apply in_map. exact Hg.
      * intros i. rewrite in_map_iff. split.
        -- intros (it & Hi & Hit). exists it. split; [apply Hmem; eauto|].
           split; [apply Hgkey; assumption | exact Hi].
        -- intros (it & Hit & Hkey & Hi). exists it. split; [exact Hi|].
           apply Hmem in Hit. destruct Hit as (g' & Hg' & Hit).
           rewrite (Hguniq g g' Hg Hg'); [exact Hit|].
           rewrite <- Hkey. apply Hgkey; assumption.
Qed.

Lemma C8_invoice_groups_witness :
  let out := match invoice ex_env (ex_db ex_contract ex_two []) [1%nat; 2%nat] with
             | Ok p => p
             | Err _ => (ex_db ex_contract ex_two [], [])
             end in
  invoice ex_env (ex_db ex_contract ex_two []) [1%nat; 2%nat] = Ok out
  /\ map (fun v => List.length (Invoice.lines v)) (snd out) = [2%nat]
  /\ exists items : list (gkey * (nat * InvoiceLine.t)),
    map (fun it => fst (snd it)) items = [1%nat; 2%nat]
    /\ (forall k cid l, In (k, (cid, l)) items ->
          exists cons l0,
            lookup Consumption.id ex_two cid = Ok cons
            /\ get_invoice_line ex_env (ex_db ex_contract ex_two []) cons = Ok l0
            /\ l = set_line_id l0 (InvoiceLine.id l) None
            /\ k = (InvoiceLine.party l, InvoiceLine.company l, InvoiceLine.currency l,
                    InvoiceLine.invoice_type l, Consumption.invoice_date cons))
    /\ NoDup (map (fun it => InvoiceLine.id (snd (snd it))) items)
    /\ NoDup (map invoice_key (snd out))
    /\ (forall k, (exists it, In it items /\ fst it = k) <-> In k (map invoice_key (snd out)))
    /\ (forall v, In v (snd out) ->
          NoDup (Invoice.lines v)
          /\ forall i, In i (Invoice.lines v)
                       <-> exists it, In it items /\ fst it = invoice_key v
                                      /\ InvoiceLine.id (snd (snd it)) = i).
Proof.
  intros out. split; [vm_compute; reflexivity|]. split; [vm_compute; reflexivity|].
  apply (C8_invoice_groups ex_env (ex_db ex_contract ex_two []) [1%nat; 2%nat]
           (fst out) (snd out)).
  - apply NoDup_cons; [intros [H|[]]; discriminate|].
    apply NoDup_cons; [intros []|constructor].
  - vm_compute. reflexivity.
Defined.

(** * Further properties of the module *)

(** ** The generator's output *)

Lemma consumption_loop_tiling c line spd s dates B :
  consumption_loop c line spd s dates = Ok B ->
  Forall (fun x => Consumption.end_date x = Consumption.end_period_date x
                   /\ Consumption.invoice_line x = None) B
  /\ (forall i x y, nth_error B i = Some x -> nth_error B (S i) = Some y ->
        Consumption.start_date y = Consumption.end_date x + 1
        /\ Consumption.init_period_date y = Consumption.start_date y)
  /\ (forall x, hd_error B = Some x ->
        match ls_last_consumption_date s with
        | None => Consumption.start_date x = Contract.start_date c
                  /\ Consumption.init_period_date x = spd
        | Some _ => Consumption.start_date x = ls_start s
                    /\ Consumption.init_period_date x = ls_start s
        end).
Proof.
  revert s B. induction dates as [|o rest IH]; intros s B H.
  - simpl in H. injection H as <-.
    split; [constructor|]. split; [intros [|i] x y Hx; discriminate | discriminate].
  - cbn [consumption_loop] in H.
    destruct (add_days o (-1)) as [date|err]; cbn [bind] in H; [|discriminate].
    destruct (match ls_last_invoice_date s with Some li => _ | None => _ end)
      as [inv|err]; cbn [bind] in H; [|discriminate].
    destruct (ls_last_consumption_date s) as [lcd|] eqn:Elcd; cbn [bind] in H;
      (destruct (add_days date 1) as [d'|err] eqn:E2; cbn [bind] in H; [|discriminate]);
      apply add_days_ok in E2; destruct E2 as [-> _];
      (destruct (consumption_loop _ _ _ _ rest) as [B'|err] eqn:E3; cbn [bind] in H;
         [|discriminate]);
      injection H as <-; destruct (IH _ _ E3) as (Hf & Hch & Hhd);
      cbn [ls_last_consumption_date ls_start] in Hhd;
      (split; [constructor; [split; reflexivity | exact Hf]|]);
      (split; [|intros x Hx; injection Hx as <-; split; reflexivity]);
      (intros [|i] x y Hx Hy; cbn [nth_error] in Hx, Hy;
       [injection Hx as <-; destruct B' as [|y' B']; [discriminate|];
        injection Hy as ->; destruct (Hhd y eq_refl) as [Ha Hb];
        rewrite Hb, Ha; split; reflexivity
       | exact (Hch i x y Hx Hy)]).
Qed.

(** [get_consumptions] gives, for each line of the contract, a block of
    consumptions that tile the time line: each consumption's [end_date] is
    its [end_period_date], the next one starts the day after it ends, with
    its period starting on its start date; the first one of a line without
    consumptions starts on the contract's [start_date], in the period that
    starts on [start_period_date]; the first one of a line whose last
    consumption ends on [e] starts on [e + 2].  No consumption is linked to
    an invoice line. *)
Theorem get_consumptions_tiling today c table e cs :
  get_consumptions today c table e = Ok cs ->
  exists blocks, cs = List.concat blocks
  /\ Forall2 (fun l B =>
       Forall (fun x => Consumption.contract_line x = l
                        /\ Consumption.end_date x = Consumption.end_period_date x
                        /\ Consumption.invoice_line x = None) B
       /\ (forall i x y, nth_error B i = Some x -> nth_error B (S i) = Some y ->
             Consumption.start_date y = Consumption.end_date x + 1
             /\ Consumption.init_period_date y = Consumption.start_date y)
       /\ (forall x, hd_error B = Some x ->
             match get_last_consumption_date table l with
             | None => Consumption.start_date x = Contract.start_date c
                       /\ Consumption.init_period_date x = Contract.start_period_date c
             | Some e => Consumption.start_date x = e + 2
                         /\ Consumption.init_period_date x = e + 2
             end))
     (Contract.lines c) blocks.
Proof.
  intros H. unfold get_consumptions in H.
  destruct (mapM _ _) as [blocks|err] eqn:E; cbn [bind] in H; [|discriminate].
  injection H as <-. exists blocks. split; [reflexivity|].
  apply mapM_Forall2 in E. eapply Forall2_impl; [|exact E].
  intros l B HB. pose proof (line_consumptions_lines _ _ _ _ _ HB) as Hl.
  destruct (line_consumptions_inv _ _ _ _ _ HB) as (r & s0 & lcd & D & _ & Hcase & _ & Hloop).
  destruct (consumption_loop_tiling _ _ _ _ _ _ Hloop) as (Hf & Hch & Hhd).
  cbn [ls_last_consumption_date ls_start] in Hhd.
  split; [|split; [exact Hch|]].
  - rewrite Forall_forall in Hl, Hf |- *. intros x Hx.
    destruct (Hf x Hx) as [H1 H2]. split; [exact (Hl x Hx) | split; assumption].
  - intros x Hx. specialize (Hhd x Hx).
    unfold last_consumption_date in Hcase.
    destruct Hcase as [(-> & -> & ->)|(e' & -> & -> & ->)]; exact Hhd.
Qed.

(** [get_consumptions] makes one consumption per occurrence of the
    contract's rule strictly between the resume point and the end date
    (today when none is given), in order, ending the day before it; the
    resume point is [start_period_date] for a line without consumptions
    and [e + 2] for a line whose last consumption ends on [e]. *)
Theorem get_consumptions_per_occurrence today c table e cs :
  get_consumptions today c table e = Ok cs ->
  exists blocks, cs = List.concat blocks
  /\ Forall2 (fun l B => exists r D, rrule_of c = Ok r
       /\ between r (match get_last_consumption_date table l with
                     | None => Contract.start_period_date c
                     | Some e => e + 2
                     end)
            (match e with Some d => d | None => today end) = Ok D
       /\ map Consumption.end_period_date B = map (fun o => o - 1) D)
     (Contract.lines c) blocks.
Proof.
  intros H. unfold get_consumptions, todatetime in H.
  destruct (mapM _ _) as [blocks|err] eqn:E; cbn [bind] in H; [|discriminate].
  injection H as <-. apply mapM_Forall2 in E.
  exists blocks. split; [reflexivity|].
  eapply Forall2_impl; [|exact E].
  intros l B HB.
  destruct (line_consumptions_inv _ _ _ _ _ HB)
    as (r & s0 & lcd & D & Hr & Hcase & HD & Hloop).
  exists r, D. split; [exact Hr|].
  destruct (consumption_loop_ok _ _ _ _ _ _ Hloop) as (Hends & _ & _).
  split; [|exact Hends]. unfold last_consumption_date in Hcase.
  destruct Hcase as [(-> & -> & _)|(e' & -> & -> & _)]; exact HD.
Qed.

Lemma create_consumptions_in n l x :
  In x (create_consumptions n l) ->
  exists y, In y l
  /\ Consumption.contract_line x = Consumption.contract_line y
  /\ Consumption.invoice_line x = Consumption.invoice_line y
  /\ Consumption.init_period_date x = Consumption.init_period_date y
  /\ Consumption.end_period_date x = Consumption.end_period_date y
  /\ Consumption.start_date x = Consumption.start_date y
  /\ Consumption.end_date x = Consumption.end_date y
  /\ Consumption.invoice_date x = Consumption.invoice_date y.
Proof.
  revert n. induction l as [|y l IH]; intros n; simpl; [contradiction|].
  intros [<-|Hx].
  - exists y. simpl. repeat split; auto.
  - destruct (IH _ Hx) as (y' & Hy' & Hrest). exists y'. auto.
Qed.

Lemma consume_created_facts today cs table d table' created :
  consume today cs table (Some d) = Ok (table', created) ->
  Forall (fun x =>
      (exists c, In c cs /\ In (Consumption.contract_line x) (Contract.lines c))
      /\ Consumption.invoice_line x = None
      /\ Consumption.end_period_date x < d
      /\ Consumption.end_date x < d) created.
Proof.
  intros H. unfold consume in H.
  destruct (add_days d 1) as [b|err] eqn:Eb; cbn [bind] in H; [|discriminate].
  apply add_days_ok in Eb. destruct Eb as [-> _].
  destruct (mapM _ cs) as [to_create|err] eqn:Em; cbn [bind] in H; [|discriminate].
  injection H as _ <-. apply mapM_Forall2 in Em.
  apply Forall_forall. intros x Hx.
  destruct (create_consumptions_in _ _ _ Hx) as (y & Hy & Hline & Hinv & _ & Hep & _ & Hed & _).
  rewrite Hline, Hinv, Hep, Hed.
  destruct (Forall2_concat_in _ _ _ _ Em Hy) as (c & bl & Hc & Hbl & Hybl).
  destruct (get_consumptions_inv _ _ _ _ _ Hbl) as (blocks & Hblocks & ->).
  destruct (Forall2_concat_in _ _ _ _ Hblocks Hybl) as (l & B & Hl & HB & HyB).
  destruct (line_consumptions_inv _ _ _ _ _ HB) as (r & s0 & lcd & D & _ & _ & HD & Hloop).
  destruct (consumption_loop_ok _ _ _ _ _ _ Hloop) as (Hends & Hlines & _).
  destruct (consumption_loop_tiling _ _ _ _ _ _ Hloop) as (Hf & _ & _).
  rewrite Forall_forall in Hlines, Hf. destruct (Hf y HyB) as [-> Hnone].
  assert (Hep' : In (Consumption.end_period_date y) (map (fun o => o - 1) D))
    by (rewrite <- Hends; apply in_map; exact HyB).
  apply in_map_iff in Hep'. destruct Hep' as (o & Ho & Hin).
  unfold between in HD. destruct (occurrences r (d + 1)) as [occ|err]; cbn [bind] in HD;
    [|discriminate]. injection HD as <-.
  apply between_loop_sub, take_below_lt in Hin.
  split; [exists c; rewrite (Hlines y HyB); auto|]. split; [exact Hnone|]. lia.
Qed.

(** Every consumption [consume] creates through [date] belongs to a line
    of one of the given contracts, is not linked to an invoice line, and
    ends (period and consumption alike) before [date]. *)
Theorem consume_created_bounds today cs table d table' created :
  consume today cs table (Some d) = Ok (table', created) ->
  Forall (fun x =>
      (exists c, In c cs /\ In (Consumption.contract_line x) (Contract.lines c))
      /\ Consumption.invoice_line x = None
      /\ Consumption.end_period_date x < d
      /\ Consumption.end_date x < d) created.
Proof. exact (consume_created_facts today cs table d table' created). Qed.

(** ** [Contract.get_invoice_date] *)

Lemma after_from_S r dt k f :
  after_from r dt k (S f)
  = match rrule_candidate r k with
    | Stop => Ok None
    | Fail => Err ValueError
    | Skip => after_from r dt (k + 1) f
    | Occ o => if dt <? o then Ok (Some o) else after_from r dt (k + 1) f
    end.
Proof. reflexivity. Qed.

Lemma after_from_gt r dt k fuel y : after_from r dt k fuel = Ok (Some y) -> dt < y.
Proof.
  revert k. induction fuel as [|f IH]; intros k; simpl; [discriminate|].
  destruct (rrule_candidate r k) as [o| | |]; [|apply IH|discriminate|discriminate].
  destruct (Z.ltb_spec dt o) as [Hlt|Hge]; [intros Hs; injection Hs as <-; exact Hlt | apply IH].
Qed.

Lemma get_invoice_date_gt c li y : get_invoice_date c li = Ok y -> li < y.
Proof.
  unfold get_invoice_date, todatetime. destruct (rrule_of c) as [r|err]; cbn [bind]; [|discriminate].
  destruct (rrule_after _ _) as [[z|]|err] eqn:E; cbn [bind]; intros H; try discriminate.
  injection H as <-. exact (after_from_gt _ _ _ _ _ E).
Qed.

(** The candidates of the daily and weekly rules [get_invoice_date]
    builds (interval 1). *)
Lemma rrule_candidate_daily1 li k :
  rrule_candidate (mk_rrule DAILY 1 li) k
  = if MAXORDINAL <? li + k then Stop else Occ (li + k).
Proof.
  unfold rrule_candidate. cbn [_interval _freq _dtstart day_step].
  destruct (ord2ymd li) as [[y0 m0] d0]. rewrite Z.mul_1_r. reflexivity.
Qed.

Lemma rrule_candidate_weekly1 li k :
  rrule_candidate (mk_rrule WEEKLY 1 li) k
  = if MAXORDINAL <? li + k * 7 - weekday (li + k * 7) then Stop
    else if MAXORDINAL <? li + k * 7 then Fail
    else Occ (li + k * 7).
Proof.
  unfold rrule_candidate. cbn [_interval _freq _dtstart day_step].
  destruct (ord2ymd li) as [[y0 m0] d0]. reflexivity.
Qed.

Lemma weekday_add7 n : weekday (n + 7) = weekday n.
Proof.
  unfold weekday. replace (n + 7 + 6) with (n + 6 + 1 * 7) by lia.
  apply Z_mod_plus_full.
Qed.

Lemma weekday_range n : 0 <= weekday n < 7.
Proof. unfold weekday. apply Z.mod_pos_bound. lia. Qed.

(** Within one run, the invoice dates of a line's consumptions strictly
    increase. *)
Theorem get_consumptions_invoice_dates_increase today c table e cs :
  get_consumptions today c table e = Ok cs ->
  exists blocks, cs = List.concat blocks
  /\ Forall (fun B => forall i x y, nth_error B i = Some x -> nth_error B (S i) = Some y ->
                       Consumption.invoice_date x < Consumption.invoice_date y) blocks.
Proof.
  intros H. unfold get_consumptions in H.
  destruct (mapM _ _) as [blocks|err] eqn:E; cbn [bind] in H; [|discriminate].
  injection H as <-. exists blocks. split; [reflexivity|].
  apply mapM_Forall2 in E. apply Forall_forall. intros B HB.
  destruct (Forall2_in_r _ _ _ _ E HB) as (l & HlB & _).
  destruct (line_consumptions_inv _ _ _ _ _ HlB) as (r & s0 & lcd & D & _ & _ & _ & Hloop).
  destruct (consumption_loop_invoice_dates _ _ _ _ _ _ Hloop) as [Hch _].
  intros i x y Hx Hy. exact (get_invoice_date_gt _ _ _ (Hch i x y Hx Hy)).
Qed.

(** [get_invoice_date] uses the contract's frequency with interval 1: a
    daily contract invoices the next day, a weekly one seven days later,
    whatever its interval.  Past [date.max] the daily rule has no
    occurrence and [None.date()] raises; so has the weekly rule when the
    next week starts after [date.max], but when it starts on or before it
    dateutil builds the day of that week past [date.max]: [ValueError]. *)
Theorem get_invoice_date_daily_weekly c li :
  li <= MAXORDINAL ->
  (Contract.freq c = Some DAILY ->
   get_invoice_date c li
   = if li + 1 <=? MAXORDINAL then Ok (li + 1) else Err AttributeError)
  /\ (Contract.freq c = Some WEEKLY ->
      get_invoice_date c li
      = if li + 7 <=? MAXORDINAL then Ok (li + 7)
        else if li + 7 - weekday li <=? MAXORDINAL then Err ValueError
        else Err AttributeError).
Proof.
  intros Hli. unfold get_invoice_date, rrule_of, rrule_after, todatetime.
  split; intros Hf; rewrite Hf; cbn [bind _freq];
    (match goal with |- context [after_from ?r ?dt 0 (?f + 4802)%nat] =>
       replace (f + 4802)%nat with (S (S (f + 4800))) by lia end);
    rewrite !after_from_S.
  - rewrite !rrule_candidate_daily1.
    rewrite Z.add_0_r. replace (0 + 1) with 1 by reflexivity.
    destruct (Z.ltb_spec MAXORDINAL li) as [H|H]; [lia|]. rewrite Z.ltb_irrefl.
    destruct (Z.ltb_spec MAXORDINAL (li + 1)) as [H1|H1];
      destruct (Z.leb_spec (li + 1) MAXORDINAL) as [H2|H2]; try lia; cbn [bind]; [reflexivity|].
    destruct (Z.ltb_spec li (li + 1)); [reflexivity | lia].
  - rewrite !rrule_candidate_weekly1.
    replace (li + 0 * 7) with li by lia. replace (0 + 1) with 1 by reflexivity.
    replace (li + 1 * 7) with (li + 7) by lia. rewrite weekday_add7.
    pose proof (weekday_range li) as Hw.
    destruct (Z.ltb_spec MAXORDINAL (li - weekday li)) as [H|H]; [lia|].
    destruct (Z.ltb_spec MAXORDINAL li) as [H'|H']; [lia|]. rewrite Z.ltb_irrefl.
    destruct (Z.leb_spec (li + 7) MAXORDINAL) as [H1|H1].
    + destruct (Z.ltb_spec MAXORDINAL (li + 7 - weekday li)); [lia|].
      destruct (Z.ltb_spec MAXORDINAL (li + 7)); [lia|].
      destruct (Z.ltb_spec li (li + 7)); [reflexivity | lia].
    + destruct (Z.leb_spec (li + 7 - weekday li) MAXORDINAL) as [H2|H2].
      * destruct (Z.ltb_spec MAXORDINAL (li + 7 - weekday li)); [lia|].
        destruct (Z.ltb_spec MAXORDINAL (li + 7)); [reflexivity | lia].
      * destruct (Z.ltb_spec MAXORDINAL (li + 7 - weekday li)); [reflexivity | lia].
Qed.

(** ** [Contract.validate] *)

Lemma mapM_Ok_iff {A B} (f : A -> result B) l :
  (exists ys, mapM f l = Ok ys) <-> Forall (fun x => exists y, f x = Ok y) l.
Proof.
  induction l as [|x l IH]; simpl.
  - split; [constructor | intros _; exists []; reflexivity].
  - split.
    + intros (ys & H). destruct (f x) as [y|err] eqn:Ef; cbn [bind] in H; [|discriminate].
      destruct (mapM f l) as [ys'|err] eqn:Em; cbn [bind] in H; [|discriminate].
      constructor; [exists y; exact Ef | apply IH; exists ys'; reflexivity].
    + intros Hf. inversion Hf as [|x' l' (y & Hy) Hl]; subst.
      destruct (proj2 IH Hl) as (ys & Hys). rewrite Hy, Hys. exists (y :: ys). reflexivity.
Qed.

Lemma mapM_Err_iff {A B} (f : A -> result B) l e :
  mapM f l = Err e <->
  exists pre x post, l = pre ++ x :: post
  /\ Forall (fun x => exists y, f x = Ok y) pre /\ f x = Err e.
Proof.
  induction l as [|x l IH]; simpl.
  - split; [discriminate|]. intros (pre & x & post & H & _). destruct pre; discriminate.
  - destruct (f x) as [y|err] eqn:Ef; cbn [bind].
    + destruct (mapM f l) as [ys|err] eqn:Em; cbn [bind].
      * split; [discriminate|]. intros (pre & x' & post & Hl & Hpre & Hx').
        destruct pre as [|p pre]; simpl in Hl; injection Hl as -> Hl.
        -- congruence.
        -- subst l. inversion Hpre; subst.
           assert (Hok : exists ys, mapM f (pre ++ x' :: post) = Ok ys) by (exists ys; exact Em).
           apply mapM_Ok_iff in Hok. apply Forall_app in Hok. destruct Hok as [_ Hok].
           inversion Hok as [|a b (z & Hz) _]; subst. congruence.
      * rewrite IH. split.
        -- intros (pre & x' & post & -> & Hpre & Hx').
           exists (x :: pre), x', post. split; [reflexivity|].
           split; [constructor; [exists y; exact Ef | exact Hpre] | exact Hx'].
        -- intros (pre & x' & post & Hl & Hpre & Hx').
           destruct pre as [|p pre]; simpl in Hl; injection Hl as <- Hl; [congruence|].
           inversion Hpre; subst. exists pre, x', post. auto.
    + split.
      * intros H. injection H as ->. exists [], x, l. split; [reflexivity|].
        split; [constructor | exact Ef].
      * intros (pre & x' & post & Hl & Hpre & Hx').
        destruct pre as [|p pre]; simpl in Hl; injection Hl as <- Hl; [congruence|].
        inversion Hpre as [|a b (z & Hz) _]; subst. congruence.
Qed.

Lemma validate_Ok_iff cs :
  validate cs = Ok tt <-> Forall (fun c => exists v, check_start_date c = Ok v) cs.
Proof.
  unfold validate. rewrite <- mapM_Ok_iff.
  destruct (mapM check_start_date cs) as [ys|err]; cbn [bind].
  - split; [intros _; exists ys; reflexivity | reflexivity].
  - split; [discriminate | intros (ys & H); discriminate].
Qed.

(** [validate] accepts a list of contracts exactly when each contract
    passes [check_start_date] on its own; otherwise it raises the error of
    the first contract that fails, the ones before it having passed. *)
Theorem validate_composes cs :
  (validate cs = Ok tt <-> Forall (fun c => exists v, check_start_date c = Ok v) cs)
  /\ (forall e, validate cs = Err e <->
        exists pre c post, cs = pre ++ c :: post
        /\ Forall (fun c => exists v, check_start_date c = Ok v) pre
        /\ check_start_date c = Err e).
Proof.
  split; [exact (validate_Ok_iff cs)|].
  unfold validate. intros e. rewrite <- mapM_Err_iff.
    destruct (mapM check_start_date cs) as [ys|err]; cbn [bind].
  - split; discriminate.
  - split; intros H; injection H as ->; reflexivity.
Qed.

(** A contract without a frequency cannot build its rule; the check
    behind [hasattr] swallows the error, so such contracts always pass
    [validate], whatever their dates. *)
Theorem validate_without_frequency cs :
  Forall (fun c => Contract.freq c = None) cs -> validate cs = Ok tt.
Proof.
  intros Hf. apply validate_Ok_iff.
  eapply Forall_impl; [|exact Hf]. intros c Hc. exists None.
  unfold check_start_date, rrule_of. rewrite Hc. reflexivity.
Qed.

(** ** [ContractConsumption.get_invoice_line] *)

(** When the consumption's line, contract and party are found,
    [get_invoice_line] raises [missing_account_revenue] for a service
    whose product has no revenue account, and
    [missing_account_revenue_property] for a line without service when
    neither the template nor the category property gives one. *)
Theorem get_invoice_line_account_errors e d x cl ct pt :
  lookup ContractLine.id (db_lines d) (Consumption.contract_line x) = Ok cl ->
  lookup Contract.id (db_contracts d) (ContractLine.contract cl) = Ok ct ->
  lookup Party.id (db_parties d) (Contract.party ct) = Ok pt ->
  (forall s, ContractLine.service cl = Some s ->
     Product.account_revenue_used (Service.product s) = None ->
     get_invoice_line e d x = Err (UserError "missing_account_revenue"))
  /\ (ContractLine.service cl = None ->
      property_account_revenue e "product.template" = None ->
      property_account_revenue e "product.category" = None ->
      get_invoice_line e d x = Err (UserError "missing_account_revenue_property")).
Proof.
  intros Hcl Hct Hpt. unfold get_invoice_line.
  rewrite Hcl; cbn [bind]; rewrite Hct; cbn [bind]; rewrite Hpt; cbn [bind].
  split.
  - intros s Hs Ha. rewrite Hs. cbn [option_map]. rewrite Ha. reflexivity.
  - intros Hs Ht Hc. rewrite Hs. cbn [option_map]. rewrite Ht, Hc. reflexivity.
Qed.

(** A line made by [get_invoice_line] is an [out_invoice] line of type
    [line] whose origin is the consumption's contract line, with that
    line's unit price and the contract's party, company and currency; for
    a service, its product, unit, customer taxes and revenue account are
    the service product's; without service it has no product, no unit and
    no taxes, and takes the template's revenue property, else the
    category's. *)
Theorem get_invoice_line_fields e d x l :
  get_invoice_line e d x = Ok l ->
  exists cl ct pt,
  lookup ContractLine.id (db_lines d) (Consumption.contract_line x) = Ok cl
  /\ lookup Contract.id (db_contracts d) (ContractLine.contract cl) = Ok ct
  /\ lookup Party.id (db_parties d) (Contract.party ct) = Ok pt
  /\ InvoiceLine.invoice_type l = Out_invoice /\ InvoiceLine.type l = "line"%string
  /\ InvoiceLine.origin l = Consumption.contract_line x
  /\ InvoiceLine.unit_price l = ContractLine.unit_price cl
  /\ InvoiceLine.party l = Contract.party ct
  /\ InvoiceLine.company l = Contract.company ct
  /\ InvoiceLine.currency l = Contract.currency ct
  /\ match ContractLine.service cl with
     | Some s =>
         InvoiceLine.product l = Some (Product.id (Service.product s))
         /\ InvoiceLine.unit l = Some (Product.default_uom (Service.product s))
         /\ InvoiceLine.taxes l = taxes_of pt (Service.product s)
         /\ Product.account_revenue_used (Service.product s) = Some (InvoiceLine.account l)
     | None =>
         InvoiceLine.product l = None /\ InvoiceLine.unit l = None
         /\ InvoiceLine.taxes l = []
         /\ (property_account_revenue e "product.template" = Some (InvoiceLine.account l)
             \/ property_account_revenue e "product.template" = None
                /\ property_account_revenue e "product.category"
                   = Some (InvoiceLine.account l))
     end.
Proof.
  unfold get_invoice_line.
  destruct (lookup ContractLine.id _ _) as [cl|err] eqn:Ecl; cbn [bind]; [|discriminate].
  destruct (lookup Contract.id _ _) as [ct|err] eqn:Ect; cbn [bind]; [|discriminate].
  destruct (lookup Party.id _ _) as [pt|err] eqn:Ept; cbn [bind]; [|discriminate].
  pose proof (lookup_id _ _ _ _ Ecl) as Hid.
  destruct (ContractLine.service cl) as [s|] eqn:Es; cbn [option_map].
  - destruct (Product.account_revenue_used (Service.product s)) as [a|] eqn:Ea;
      cbn [bind]; [|discriminate].
    destruct (divide _ _) as [q|err]; cbn [bind]; [|discriminate].
    intros H. injection H as <-. exists cl, ct, pt. cbn.
    rewrite Es. repeat split; auto.
  - destruct (property_account_revenue e "product.template") as [a|] eqn:Et; cbn [bind].
    + destruct (divide _ _) as [q|err]; cbn [bind]; [|discriminate].
      intros H. injection H as <-. exists cl, ct, pt. cbn.
      rewrite Es. repeat split; auto.
    + destruct (property_account_revenue e "product.category") as [a|] eqn:Ec;
        cbn [bind]; [|discriminate].
      destruct (divide _ _) as [q|err]; cbn [bind]; [|discriminate].
      intros H. injection H as <-. exists cl, ct, pt. cbn.
      rewrite Es. repeat split; auto.
Qed.

(** The quantity of a line made by [get_invoice_line] is [Uom.round] of
    the share of the consumption's period it covers (its days over the
    period's days, as a value), at the unit's rounding (1 without unit);
    the line is made only when the period has a nonzero length. *)
Theorem get_invoice_line_quantity e d x l :
  get_invoice_line e d x = Ok l ->
  Consumption.end_period_date x <> Consumption.init_period_date x
  /\ exists q,
       (q == inject_Z (Consumption.end_date x - Consumption.start_date x)
             / inject_Z (Consumption.end_period_date x - Consumption.init_period_date x))%Q
       /\ InvoiceLine.quantity l
          = uom_round e q (match InvoiceLine.unit l with
                           | Some u => Uom.rounding u
                           | None => 1%Q
                           end).
Proof.
  unfold get_invoice_line.
  destruct (lookup ContractLine.id _ _) as [cl|err]; cbn [bind]; [|discriminate].
  destruct (lookup Contract.id _ _) as [ct|err]; cbn [bind]; [|discriminate].
  destruct (lookup Party.id _ _) as [pt|err]; cbn [bind]; [|discriminate].
  destruct (match option_map Service.product (ContractLine.service cl) with
            | Some p => _ | None => _ end) as [[[u t] a]|err]; cbn [bind]; [|discriminate].
  unfold divide, total_seconds.
  destruct (Z.eqb_spec ((Consumption.end_period_date x - Consumption.init_period_date x) * 86400) 0)
    as [Hz|Hz]; cbn [bind]; [discriminate|].
  intros H. injection H as <-. split; [lia|].
  eexists. split; [|reflexivity].
  assert (Hp : ~ (inject_Z (Consumption.end_period_date x - Consumption.init_period_date x) == 0)%Q).
  { change 0%Q with (inject_Z 0). rewrite inject_Z_injective. lia. }
  rewrite !inject_Z_mult. field. exact Hp.
Qed.

(** ** [ContractLine.on_change_service] *)

(** A nonzero unit price already on the form is never kept by
    [on_change_service]: the changes always set [unit_price], to [None]
    (with or without a service), never to the price entered. *)
Theorem on_change_service_drops_price s p desc :
  ~ (p == 0)%Q -> LineChanges.unit_price (on_change_service s (Some p) desc) = None.
Proof.
  intros Hp. unfold on_change_service, decimal_truthy.
  destruct s as [sv|]; [|reflexivity]. cbn [LineChanges.unit_price].
  destruct (Qeq_bool p 0) eqn:E; [|reflexivity].
  apply Qeq_bool_eq in E. contradiction.
Qed.

(** ** [Contract.set_reference] *)

Lemma set_reference_loop_spec fmt next cs next' w :
  set_reference_loop fmt next cs = (next', w) ->
  exists nums, w = map (fun p => (fst p, fmt (snd p))) nums
  /\ map fst nums = map Contract.id (filter (fun c => negb (reference_truthy c)) cs)
  /\ map snd nums = seq next (next' - next)
  /\ (next <= next')%nat.
Proof.
  revert next next' w. induction cs as [|c cs IH]; intros next next' w H; simpl in H.
  - injection H as <- <-. exists []. simpl. rewrite Nat.sub_diag. auto.
  - destruct (reference_truthy c) eqn:Et; simpl; rewrite Et; simpl.
    + exact (IH _ _ _ H).
    + destruct (set_reference_loop fmt (S next) cs) as [n w'] eqn:E.
      injection H as <- <-. destruct (IH _ _ _ E) as (nums & -> & Hf & Hs & Hle).
      exists ((Contract.id c, next) :: nums). simpl.
      split; [reflexivity|]. split; [rewrite Hf; reflexivity|].
      split; [|lia]. rewrite Hs. replace (n - next)%nat with (S (n - S next)) by lia.
      reflexivity.
Qed.

Lemma find_fst_none {B} (w : list (nat * B)) i :
  ~ In i (map fst w) -> find (fun p => Nat.eqb (fst p) i) w = None.
Proof.
  induction w as [|[j b] w IH]; simpl; [reflexivity|]. intros Hn.
  destruct (Nat.eqb_spec j i); [tauto|]. apply IH. tauto.
Qed.

Lemma write_references_map table w :
  NoDup (map fst w) ->
  write_references table w
  = map (fun r => match find (fun p => Nat.eqb (fst p) (Contract.id r)) w with
                  | Some p => set_contract_reference r (Some (snd p))
                  | None => r
                  end) table.
Proof.
  unfold write_references. revert table.
  induction w as [|[i ref] w IH]; intros table Hnd; simpl.
  - symmetry. apply map_id.
  - inversion Hnd as [|a b Hi Hnd']; subst. rewrite (IH _ Hnd'), map_map.
    apply map_ext. intros r.
    destruct (Nat.eqb_spec (Contract.id r) i) as [Hr|Hr].
    + cbn [Contract.id set_contract_reference]. rewrite Hr, Nat.eqb_refl.
      rewrite find_fst_none by exact Hi. reflexivity.
    + destruct (Nat.eqb_spec i (Contract.id r)); [congruence|]. reflexivity.
Qed.

Lemma find_map_pair {B C} (h : B -> C) (nums : list (nat * B)) i :
  find (fun p => Nat.eqb (fst p) i) (map (fun p => (fst p, h (snd p))) nums)
  = option_map (fun p => (fst p, h (snd p))) (find (fun p => Nat.eqb (fst p) i) nums).
Proof.
  induction nums as [|[j b] nums IH]; simpl; [reflexivity|].
  destruct (Nat.eqb j i); [reflexivity | exact IH].
Qed.

Lemma NoDup_map_filter {A B} (g : A -> B) (f : A -> bool) l :
  NoDup (map g l) -> NoDup (map g (filter f l)).
Proof.
  induction l as [|x l IH]; simpl; [auto|]. intros Hnd.
  inversion Hnd as [|a b Hx Hnd']; subst.
  destruct (f x); simpl; [|exact (IH Hnd')].
  constructor; [|exact (IH Hnd')].
  intros Hin. apply Hx. apply in_map_iff in Hin. destruct Hin as (y & Hy & Hin).
  apply filter_In in Hin. rewrite <- Hy. apply in_map. tauto.
Qed.

(** [set_reference] gives each listed contract without a (non-empty)
    reference the string of a sequence number drawn in this call, distinct
    numbers for distinct contracts, and changes nothing else: the other
    records and fields of the table are unchanged, and the sequence
    advances by the number of contracts that needed a reference. *)
Theorem set_reference_assigns fmt next table cs next' table' :
  NoDup (map Contract.id cs) ->
  set_reference fmt next table cs = (next', table') ->
  exists assign : nat -> option nat,
    table' = map (fun r => match assign (Contract.id r) with
                           | Some k => set_contract_reference r (Some (fmt k))
                           | None => r
                           end) table
    /\ (forall i, assign i <> None <->
          exists c, In c cs /\ Contract.id c = i /\ reference_truthy c = false)
    /\ (forall i k, assign i = Some k -> (next <= k < next')%nat)
    /\ (forall i j k, assign i = Some k -> assign j = Some k -> i = j)
    /\ next' = (next + List.length (filter (fun c => negb (reference_truthy c)) cs))%nat.
Proof.
  intros Hnd H. unfold set_reference in H.
  destruct (set_reference_loop fmt next cs) as [n w] eqn:E. injection H as <- <-.
  destruct (set_reference_loop_spec _ _ _ _ _ E) as (nums & -> & Hf & Hs & Hle).
  assert (Hndf : NoDup (map fst nums)) by (rewrite Hf; apply NoDup_map_filter; exact Hnd).
  assert (Hnds : NoDup (map snd nums)) by (rewrite Hs; apply seq_NoDup).
  exists (fun i => option_map snd (find (fun p => Nat.eqb (fst p) i) nums)).
  split; [|split; [|split; [|split]]].
  - rewrite write_references_map by (rewrite map_map; exact Hndf).
    apply map_ext. intros r. rewrite find_map_pair.
    destruct (find _ nums) as [p|]; reflexivity.
  - intros i. split.
    + intros Hs'. destruct (find _ nums) as [p|] eqn:Ep; [|contradiction].
      apply find_some in Ep. destruct Ep as [Hp Hpi]. apply Nat.eqb_eq in Hpi.
      assert (Hin : In (fst p) (map fst nums)) by (apply in_map; exact Hp).
      rewrite Hf in Hin. apply in_map_iff in Hin. destruct Hin as (c & Hc & Hin).
      apply filter_In in Hin. destruct Hin as [Hin Ht]. apply negb_true_iff in Ht.
      exists c. split; [exact Hin|]. split; [congruence | exact Ht].
    + intros (c & Hc & Hci & Ht).
      assert (Hin : In i (map fst nums)).
      { rewrite Hf, <- Hci. apply in_map. apply filter_In. rewrite Ht. auto. }
      destruct (find _ nums) as [p|] eqn:Ep; [simpl; discriminate|].
      exfalso. pose proof (find_none _ _ Ep) as Hno.
      apply in_map_iff in Hin. destruct Hin as (p & Hp & Hin).
      specialize (Hno p Hin). cbn beta in Hno. rewrite Hp, Nat.eqb_refl in Hno. discriminate.
  - intros i k Hk. destruct (find _ nums) as [p|] eqn:Ep; [|discriminate].
    injection Hk as <-. apply find_some in Ep. destruct Ep as [Hp _].
    assert (Hin : In (snd p) (map snd nums)) by (apply in_map; exact Hp).
    rewrite Hs in Hin. apply in_seq in Hin. lia.
  - intros i j k Hi Hj.
    destruct (find (fun p => Nat.eqb (fst p) i) nums) as [p|] eqn:Ep; [|discriminate].
    destruct (find (fun p => Nat.eqb (fst p) j) nums) as [q|] eqn:Eq; [|discriminate].
    injection Hi as Hi. injection Hj as Hj.
    apply find_some in Ep. apply find_some in Eq.
    destruct Ep as [Hp Hpi]. destruct Eq as [Hq Hqj].
    apply Nat.eqb_eq in Hpi. apply Nat.eqb_eq in Hqj.
    assert (p = q) as -> by (apply (NoDup_map_in_eq snd nums); auto; congruence).
    congruence.
  - assert (Hl1 := f_equal (@List.length nat) Hf). assert (Hl2 := f_equal (@List.length nat) Hs).
    rewrite !length_map in Hl1. rewrite length_map, length_seq in Hl2. lia.
Qed.

(** ** [CreateConsumptions.do_create_consumptions] *)

Lemma consume_table today cs table date table' created :
  consume today cs table date = Ok (table', created) -> table' = table ++ created.
Proof.
  unfold consume. destruct (match date with Some d => _ | None => _ end); cbn [bind]; [|discriminate].
  destruct (mapM _ cs); cbn [bind]; [|discriminate].
  intros H. injection H as <- <-. reflexivity.
Qed.

(** Every consumption the wizard reports (by id) is in the table
    afterwards, belongs to a line of a validated contract, is not linked
    to an invoice line and ends before the wizard's date. *)
Theorem do_create_consumptions_validated today contracts table d table' ids :
  do_create_consumptions today contracts table (Some d) = Ok (table', ids) ->
  Forall (fun i => exists x, In x table' /\ Consumption.id x = i
    /\ (exists c, In c contracts /\ Contract.state c = Validated
                  /\ In (Consumption.contract_line x) (Contract.lines c))
    /\ Consumption.invoice_line x = None
    /\ Consumption.end_date x < d) ids.
Proof.
  unfold do_create_consumptions.
  destruct (consume _ _ _ _) as [[t created]|err] eqn:E; cbn [bind]; [|discriminate].
  intros H. injection H as <- <-.
  pose proof (consume_table _ _ _ _ _ _ E) as ->.
  pose proof (consume_created_facts _ _ _ _ _ _ E) as Hf.
  apply Forall_forall. intros i Hi. apply in_map_iff in Hi. destruct Hi as (x & <- & Hx).
  rewrite Forall_forall in Hf. destruct (Hf x Hx) as ((c & Hc & Hl) & Hn & _ & He).
  exists x. split; [apply in_or_app; right; exact Hx|]. split; [reflexivity|].
  split; [|split; assumption].
  apply filter_In in Hc. destruct Hc as [Hc Hv]. exists c.
  split; [exact Hc|]. split; [|exact Hl].
  unfold is_validated in Hv. destruct (Contract.state c); congruence.
Qed.

(** ** [ContractConsumption.invoice]: the links it writes *)

Lemma invoice_lines_loop_out e d cs lines tw d' lines' tw' :
  NoDup (map Consumption.id cs) ->
  (forall c, In c cs -> ~ In (Consumption.id c) (map fst lines)) ->
  invoice_lines_loop e d cs lines tw = Ok (d', lines', tw') ->
  exists ls, List.length ls = List.length cs
  /\ lines' = lines ++ map (fun p => (Consumption.id (fst p), snd p)) (combine cs ls)
  /\ tw' = tw ++ map (fun p => (Consumption.id (fst p), InvoiceLine.id (snd p))) (combine cs ls)
  /\ db_invoice_lines d' = db_invoice_lines d ++ ls.
Proof.
  revert d lines tw. induction cs as [|c cs IH]; intros d lines tw Hnd Hfresh H.
  - simpl in H. injection H as <- <- <-. exists [].
    rewrite !app_nil_r. repeat split; reflexivity.
  - cbn [invoice_lines_loop] in H.
    destruct (get_invoice_line e d c) as [l0|err] eqn:El; cbn [bind] in H; [|discriminate].
    cbn [map] in Hnd. apply NoDup_cons_iff in Hnd. destruct Hnd as [Hc Hnd].
    assert (Hk : ~ In (Consumption.id c) (map fst lines)) by (apply Hfresh; left; reflexivity).
    rewrite (dict_set_new _ _ _ Hk) in H.
    apply IH in H; [|exact Hnd|].
    2:{ intros c' Hc'. rewrite map_app, in_app_iff. simpl. intros [H1|[H2|[]]].
        - exact (Hfresh c' (or_intror Hc') H1).
        - apply Hc. rewrite H2. apply in_map. exact Hc'. }
    destruct H as (ls1 & Hlen & Hl & Htw & Hdl).
    exists (set_line_id l0 (next_line_id d) None :: ls1). cbn [List.length combine map].
    split; [rewrite Hlen; reflexivity|].
    split; [rewrite Hl, <- app_assoc; reflexivity|].
    split; [rewrite Htw, <- app_assoc; reflexivity|].
    rewrite Hdl. cbn [db_invoice_lines]. rewrite <- app_assoc. reflexivity.
Qed.

Lemma map_fst_combine_eq {A B} (l : list A) (l' : list B) :
  List.length l' = List.length l -> map fst (combine l l') = l.
Proof.
  revert l'. induction l as [|a l IH]; intros [|b l'] H; simpl in *; try discriminate; auto.
  rewrite IH; [reflexivity | lia].
Qed.

Lemma in_combine_l {A B} (l : list A) (l' : list B) a :
  List.length l' = List.length l -> In a l -> exists b, In (a, b) (combine l l') /\ In b l'.
Proof.
  revert l'. induction l as [|x l IH]; intros [|b l'] H Ha; simpl in *; try discriminate;
    [contradiction|].
  destruct Ha as [<-|Ha]; [exists b; auto|].
  destruct (IH l' ltac:(lia) Ha) as (b' & H1 & H2). exists b'. auto.
Qed.

Lemma find_fst_in {B} (w : list (nat * B)) i b :
  NoDup (map fst w) -> In (i, b) w -> find (fun p => Nat.eqb (fst p) i) w = Some (i, b).
Proof.
  induction w as [|[j b'] w IH]; simpl; [contradiction|]. intros Hnd Hin.
  inversion Hnd as [|a l Hj Hnd']; subst.
  destruct Hin as [Heq|Hin].
  - injection Heq as -> ->. rewrite Nat.eqb_refl. reflexivity.
  - destruct (Nat.eqb_spec j i) as [->|Hne]; [|exact (IH Hnd' Hin)].
    exfalso. apply Hj. apply (in_map fst) in Hin. exact Hin.
Qed.

Lemma write_invoice_lines_map tw cs :
  NoDup (map fst tw) ->
  write_invoice_lines tw cs
  = map (fun c => match find (fun w => Nat.eqb (fst w) (Consumption.id c)) tw with
                  | Some w => set_consumption_invoice_line c (Some (snd w))
                  | None => c
                  end) cs.
Proof.
  unfold write_invoice_lines. revert cs.
  induction tw as [|[i n] tw IH]; intros cs Hnd; simpl.
  - symmetry. apply map_id.
  - inversion Hnd as [|a b Hi Hnd']; subst. rewrite (IH _ Hnd'), map_map.
    apply map_ext. intros c.
    destruct (Nat.eqb_spec (Consumption.id c) i) as [Hc|Hc].
    + cbn [Consumption.id set_consumption_invoice_line]. rewrite Hc, Nat.eqb_refl.
      rewrite find_fst_none by exact Hi. reflexivity.
    + destruct (Nat.eqb_spec i (Consumption.id c)); [congruence|]. reflexivity.
Qed.

Lemma lookup_map_same_id (g : Consumption.t -> Consumption.t) cs i :
  (forall c, Consumption.id (g c) = Consumption.id c) ->
  lookup Consumption.id (map g cs) i
  = match lookup Consumption.id cs i with Ok c => Ok (g c) | Err e => Err e end.
Proof.
  intros Hg. unfold lookup. induction cs as [|c cs IH]; simpl; [reflexivity|].
  rewrite Hg. destruct (Nat.eqb (Consumption.id c) i); [reflexivity | exact IH].
Qed.

(** The saved lines of [invoice] are the lines the created invoices list. *)
Lemma invoice_groups_cover e d1 news invs :
  news <> [] ->
  (exists dec invs0,
     mapM (fun it => k <- group_invoice_key d1 it ;; Ok (k, it)) news = Ok dec
     /\ mapM (fun kg => v <- get_invoice e d1 (fst kg) ;;
                        Ok (set_invoice_id v 0 (Invoice.lines v ++
                              map (fun x => InvoiceLine.id (snd (snd x))) (snd kg))))
          (groupby gkey_enc fst (sorted_by gkey_enc fst dec)) = Ok invs0
     /\ invs = create_invoices (next_invoice_id d1) invs0) ->
  forall it, In it news -> exists v, In v invs /\ In (InvoiceLine.id (snd it)) (Invoice.lines v).
Proof.
  intros _ (dec & invs0 & Edec & Einv & ->) it Hit.
  apply mapM_Forall2 in Edec, Einv.
  set (groups := groupby gkey_enc fst (sorted_by gkey_enc fst dec)) in Einv.
  assert (Hinv : map (fun v => (invoice_key v, Invoice.lines v))
                   (create_invoices (next_invoice_id d1) invs0)
                 = map (fun g => (fst g, map (fun x => InvoiceLine.id (snd (snd x))) (snd g)))
                     groups).
  { rewrite create_invoices_keys_lines. symmetry. apply Forall2_map_eq.
    eapply Forall2_impl; [|exact Einv]. intros g v Hv. cbv beta in Hv |- *.
    destruct (get_invoice e d1 (fst g)) as [v0|err] eqn:Ev; cbn [bind] in Hv; [|discriminate].
    injection Hv as <-. apply get_invoice_key in Ev. destruct Ev as [Hk Hl0].
    unfold invoice_key in *. cbn. rewrite Hl0. simpl. rewrite <- Hk. reflexivity. }
  destruct (Forall2_in_l _ _ _ _ Edec Hit) as (x & Hx & Hxdec). cbv beta in Hx.
  destruct (group_invoice_key d1 it) as [k|err]; cbn [bind] in Hx; [|discriminate].
  injection Hx as <-.
  pose proof (sorted_by_perm gkey_enc fst dec) as Hperm.
  pose proof (groupby_concat gkey_enc fst (sorted_by gkey_enc fst dec)) as Hconcat.
  fold groups in Hconcat.
  assert (Hs : In (k, it) (sorted_by gkey_enc fst dec))
    by (apply (Permutation_in _ (Permutation_sym Hperm)); exact Hxdec).
  rewrite <- Hconcat in Hs. apply in_concat in Hs. destruct Hs as (gl & Hgl & Hin).
  apply in_map_iff in Hgl. destruct Hgl as (g & <- & Hg).
  assert (Hv : In (fst g, map (fun x => InvoiceLine.id (snd (snd x))) (snd g))
                 (map (fun v => (invoice_key v, Invoice.lines v))
                    (create_invoices (next_invoice_id d1) invs0)))
    by (rewrite Hinv; apply (in_map (fun g => (fst g, map (fun x => InvoiceLine.id (snd (snd x))) (snd g)))); exact Hg).
  apply in_map_iff in Hv. destruct Hv as (v & Heq & Hv). injection Heq as _ Hls.
  exists v. split; [exact Hv|]. rewrite Hls.
  apply (in_map (fun x => InvoiceLine.id (snd (snd x))) _ (k, it)). exact Hin.
Qed.

(** [invoice] over distinct consumption ids points each consumption's
    [invoice_line] to a line it saves under an id new to the table; that
    line belongs to one of the invoices it creates, which lists it, and
    points back to it.  The other consumptions are left as they were. *)
Theorem invoice_links_consumptions e d ids d' invs :
  NoDup ids ->
  invoice e d ids = Ok (d', invs) ->
  Forall (fun i => exists c l v,
      lookup Consumption.id (db_consumptions d) i = Ok c
      /\ lookup Consumption.id (db_consumptions d') i
         = Ok (set_consumption_invoice_line c (Some (InvoiceLine.id l)))
      /\ In l (db_invoice_lines d')
      /\ ~ In (InvoiceLine.id l) (map InvoiceLine.id (db_invoice_lines d))
      /\ In v invs /\ In (InvoiceLine.id l) (Invoice.lines v)
      /\ InvoiceLine.invoice l = Some (Invoice.id v)) ids
  /\ (forall c, In c (db_consumptions d) -> ~ In (Consumption.id c) ids ->
        In c (db_consumptions d')).
Proof.
  intros Hnd H. unfold invoice in H.
  destruct (mapM _ ids) as [cs|err] eqn:Ecs; cbn [bind] in H; [|discriminate].
  destruct (invoice_lines_loop e d cs [] []) as [[[d1 lines] tw]|err] eqn:El;
    cbn [bind] in H; [|discriminate].
  apply mapM_Forall2 in Ecs. pose proof (lookup_ids _ _ _ Ecs) as Hids.
  assert (Hndc : NoDup (map Consumption.id cs)) by (rewrite Hids; exact Hnd).
  destruct (invoice_lines_loop_spec e d cs [] [] d1 lines tw) as (news & Hl & _ & _ & Hfr & Hcs1);
    [exact Hndc | intros c _ [] | exact El |].
  destruct (invoice_lines_loop_out e d cs [] [] d1 lines tw) as (ls & Hlen & Hl' & Htw & Hdl);
    [exact Hndc | intros c _ [] | exact El |].
  simpl in Hl, Hl', Htw. subst lines tw.
  set (tw := map (fun p => (Consumption.id (fst p), InvoiceLine.id (snd p))) (combine cs ls)) in *.
  assert (Htwfst : map fst tw = ids).
  { unfold tw. rewrite map_map. cbn [fst]. rewrite <- (map_map fst Consumption.id).
    rewrite map_fst_combine_eq by exact Hlen. exact Hids. }
  assert (Hndtw : NoDup (map fst tw)) by (rewrite Htwfst; exact Hnd).
  assert (Hlink : forall i, In i ids -> exists c l,
             lookup Consumption.id (db_consumptions d) i = Ok c
             /\ In (i, InvoiceLine.id l) tw /\ In (i, l) news /\ In l ls).
  { intros i Hi. destruct (Forall2_in_l _ _ _ _ Ecs Hi) as (c & Hc & Hcin).
    destruct (in_combine_l cs ls c Hlen Hcin) as (l & Hcl & Hlin).
    pose proof (lookup_id _ _ _ _ Hc) as Hid. subst i.
    exists c, l. split; [exact Hc|].
    split; [apply (in_map (fun p => (Consumption.id (fst p), InvoiceLine.id (snd p))) _ (c, l));
            exact Hcl|].
    split; [rewrite Hl'; apply (in_map (fun p => (Consumption.id (fst p), snd p)) _ (c, l));
            exact Hcl|].
    exact Hlin. }
  destruct news as [|it0 news0].
  - injection H as <- <-.
    assert (Hcs0 : cs = []).
    { destruct cs as [|c cs]; [reflexivity|]. destruct ls; discriminate. }
    subst cs. simpl in Hids. subst ids.
    split; [constructor|]. intros c Hc _. rewrite Hcs1. exact Hc.
  - cbv beta iota in H. set (news := it0 :: news0) in *.
    destruct (mapM _ news) as [dec|err] eqn:Edec; cbn [bind] in H; [|discriminate].
    destruct (mapM _ (groupby gkey_enc fst (sorted_by gkey_enc fst dec))) as [invs0|err] eqn:Einv;
      cbn [bind] in H; [|discriminate].
    injection H as <- <-. cbn [db_consumptions db_invoice_lines].
    pose proof (invoice_groups_cover e d1 news (create_invoices (next_invoice_id d1) invs0)
                  ltac:(discriminate)
                  (ex_intro _ dec (ex_intro _ invs0 (conj Edec (conj Einv eq_refl)))))
      as Hcover.
    set (invs := create_invoices (next_invoice_id d1) invs0) in *.
    rewrite (write_invoice_lines_map _ _ Hndtw), Hcs1.
    split.
    + apply Forall_forall. intros i Hi.
      destruct (Hlink i Hi) as (c & l & Hc & Htwi & Hnews & Hls).
      destruct (Hcover (i, l) Hnews) as (v & Hv & Hlv). cbn [snd] in Hlv.
      destruct (find (fun v => existsb (Nat.eqb (InvoiceLine.id l)) (Invoice.lines v)) invs)
        as [v'|] eqn:Ev.
      * pose proof Ev as Ev0. apply find_some in Ev. destruct Ev as [Hv' Hex].
        apply existsb_exists in Hex. destruct Hex as (n & Hn & Hnl).
        apply Nat.eqb_eq in Hnl. subst n.
        exists c, (attach_line invs l), v'.
        rewrite attach_line_id. split; [exact Hc|].
        split; [|split; [|split; [|split; [exact Hv' | split; [exact Hn|]]]]].
        -- rewrite lookup_map_same_id by (intros c'; destruct (find _ tw); reflexivity).
           rewrite Hc, (lookup_id _ _ _ _ Hc), (find_fst_in _ _ _ Hndtw Htwi). reflexivity.
        -- rewrite Hdl. apply in_map. apply in_or_app. right. exact Hls.
        -- rewrite Forall_forall in Hfr. exact (Hfr (i, l) Hnews).
        -- unfold attach_line. rewrite Ev0. reflexivity.
      * exfalso. pose proof (find_none _ _ Ev v Hv) as Hno. cbv beta in Hno.
        assert (Ht : existsb (Nat.eqb (InvoiceLine.id l)) (Invoice.lines v) = true)
          by (apply existsb_exists; exists (InvoiceLine.id l);
              split; [exact Hlv | apply Nat.eqb_refl]).
        congruence.
    + intros c Hc Hni. apply in_map_iff. exists c. split; [|exact Hc].
      rewrite find_fst_none; [reflexivity|]. rewrite Htwfst. exact Hni.
Qed.

(** ** Instances of the properties above *)

(** Line 1 resumes after its January consumption: one consumption, from
    2020-02-02 to 2020-02-29. *)
Lemma get_consumptions_tiling_witness :
  let cs := match get_consumptions 0 ex_contract ex_history (Some (ymd2ord 2020 4 1)) with
            | Ok cs => cs | Err _ => [] end in
  get_consumptions 0 ex_contract ex_history (Some (ymd2ord 2020 4 1)) = Ok cs
  /\ List.length cs = 1%nat
  /\ exists blocks, cs = List.concat blocks
  /\ Forall2 (fun l B =>
       Forall (fun x => Consumption.contract_line x = l
                        /\ Consumption.end_date x = Consumption.end_period_date x
                        /\ Consumption.invoice_line x = None) B
       /\ (forall i x y, nth_error B i = Some x -> nth_error B (S i) = Some y ->
             Consumption.start_date y = Consumption.end_date x + 1
             /\ Consumption.init_period_date y = Consumption.start_date y)
       /\ (forall x, hd_error B = Some x ->
             match get_last_consumption_date ex_history l with
             | None => Consumption.start_date x = Contract.start_date ex_contract
                       /\ Consumption.init_period_date x = Contract.start_period_date ex_contract
             | Some e => Consumption.start_date x = e + 2
                         /\ Consumption.init_period_date x = e + 2
             end))
     (Contract.lines ex_contract) blocks.
Proof.
  intros cs. assert (H : get_consumptions 0 ex_contract ex_history (Some (ymd2ord 2020 4 1)) = Ok cs)
    by (vm_compute; reflexivity).
  split; [exact H|]. split; [vm_compute; reflexivity|].
  exact (get_consumptions_tiling 0 ex_contract ex_history _ cs H).
Defined.

Lemma get_consumptions_per_occurrence_witness :
  let cs := match get_consumptions 0 ex_contract [] (Some (ymd2ord 2020 4 1)) with
            | Ok cs => cs | Err _ => [] end in
  get_consumptions 0 ex_contract [] (Some (ymd2ord 2020 4 1)) = Ok cs
  /\ map Consumption.end_period_date cs = [ymd2ord 2020 1 31; ymd2ord 2020 2 29]
  /\ exists blocks, cs = List.concat blocks
  /\ Forall2 (fun l B => exists r D, rrule_of ex_contract = Ok r
       /\ between r (match get_last_consumption_date [] l with
                     | None => Contract.start_period_date ex_contract
                     | Some e => e + 2
                     end)
            (ymd2ord 2020 4 1) = Ok D
       /\ map Consumption.end_period_date B = map (fun o => o - 1) D)
     (Contract.lines ex_contract) blocks.
Proof.
  intros cs. assert (H : get_consumptions 0 ex_contract [] (Some (ymd2ord 2020 4 1)) = Ok cs)
    by (vm_compute; reflexivity).
  split; [exact H|]. split; [vm_compute; reflexivity|].
  exact (get_consumptions_per_occurrence 0 ex_contract [] _ cs H).
Defined.

Lemma consume_created_bounds_witness :
  consume 0 [ex_contract] [] (Some (ymd2ord 2020 3 31)) = Ok (ex_q1_run, ex_q1_run)
  /\ Forall (fun x =>
      (exists c, In c [ex_contract] /\ In (Consumption.contract_line x) (Contract.lines c))
      /\ Consumption.invoice_line x = None
      /\ Consumption.end_period_date x < ymd2ord 2020 3 31
      /\ Consumption.end_date x < ymd2ord 2020 3 31) ex_q1_run.
Proof.
  assert (H : consume 0 [ex_contract] [] (Some (ymd2ord 2020 3 31)) = Ok (ex_q1_run, ex_q1_run))
    by (vm_compute; reflexivity).
  split; [exact H|]. exact (consume_created_bounds 0 [ex_contract] [] _ _ _ H).
Defined.

Lemma get_consumptions_invoice_dates_increase_witness :
  let cs := match get_consumptions 0 ex_contract [] (Some (ymd2ord 2020 4 1)) with
            | Ok cs => cs | Err _ => [] end in
  get_consumptions 0 ex_contract [] (Some (ymd2ord 2020 4 1)) = Ok cs
  /\ map Consumption.invoice_date cs = [ymd2ord 2020 1 31; ymd2ord 2020 3 31]
  /\ exists blocks, cs = List.concat blocks
  /\ Forall (fun B => forall i x y, nth_error B i = Some x -> nth_error B (S i) = Some y ->
                       Consumption.invoice_date x < Consumption.invoice_date y) blocks.
Proof.
  intros cs. assert (H : get_consumptions 0 ex_contract [] (Some (ymd2ord 2020 4 1)) = Ok cs)
    by (vm_compute; reflexivity).
  split; [exact H|]. split; [vm_compute; reflexivity|].
  exact (get_consumptions_invoice_dates_increase 0 ex_contract [] _ cs H).
Defined.

(** From Saturday 9999-12-25 the weekly rule raises [ValueError]. *)
Lemma get_invoice_date_daily_weekly_witness :
  get_invoice_date ex_contract_daily (ymd2ord 2020 1 31) = Ok (ymd2ord 2020 2 1)
  /\ get_invoice_date ex_contract_daily MAXORDINAL = Err AttributeError
  /\ get_invoice_date ex_contract_weekly (ymd2ord 2020 1 31) = Ok (ymd2ord 2020 2 7)
  /\ get_invoice_date ex_contract_weekly (ymd2ord 9999 12 25) = Err ValueError
  /\ get_invoice_date ex_contract_weekly (ymd2ord 9999 12 27) = Err AttributeError.
Proof.
  assert (Hd : forall li, li <= MAXORDINAL ->
            get_invoice_date ex_contract_daily li
            = if li + 1 <=? MAXORDINAL then Ok (li + 1) else Err AttributeError)
    by (intros li Hli; exact (proj1 (get_invoice_date_daily_weekly ex_contract_daily li Hli)
                                eq_refl)).
  assert (Hw : forall li, li <= MAXORDINAL ->
            get_invoice_date ex_contract_weekly li
            = if li + 7 <=? MAXORDINAL then Ok (li + 7)
              else if li + 7 - weekday li <=? MAXORDINAL then Err ValueError
              else Err AttributeError)
    by (intros li Hli; exact (proj2 (get_invoice_date_daily_weekly ex_contract_weekly li Hli)
                                eq_refl)).
  split; [rewrite Hd by (vm_compute; discriminate); vm_compute; reflexivity|].
  split; [rewrite Hd by (vm_compute; discriminate); vm_compute; reflexivity|].
  split; [rewrite Hw by (vm_compute; discriminate); vm_compute; reflexivity|].
  split; rewrite Hw by (vm_compute; discriminate); vm_compute; reflexivity.
Defined.

Lemma validate_without_frequency_witness :
  Forall (fun c => Contract.freq c = None) [ex_contract_nofreq]
  /\ validate [ex_contract_nofreq] = Ok tt.
Proof.
  assert (H : Forall (fun c => Contract.freq c = None) [ex_contract_nofreq])
    by (constructor; [reflexivity | constructor]).
  split; [exact H | exact (validate_without_frequency _ H)].
Defined.

(** A line whose service product has no revenue account. *)
Lemma get_invoice_line_account_errors_witness :
  let d := mk_db [ex_contract] [ex_line_noacc] [ex_party] [] [] [] in
  let x := hd (Consumption.mk 0 0 None 0 0 0 0 0) ex_history in
  lookup ContractLine.id (db_lines d) (Consumption.contract_line x) = Ok ex_line_noacc
  /\ lookup Contract.id (db_contracts d) (ContractLine.contract ex_line_noacc) = Ok ex_contract
  /\ lookup Party.id (db_parties d) (Contract.party ex_contract) = Ok ex_party
  /\ get_invoice_line ex_env d x = Err (UserError "missing_account_revenue").
Proof.
  intros d x.
  assert (H1 : lookup ContractLine.id (db_lines d) (Consumption.contract_line x) = Ok ex_line_noacc)
    by reflexivity.
  assert (H2 : lookup Contract.id (db_contracts d) (ContractLine.contract ex_line_noacc)
               = Ok ex_contract) by reflexivity.
  assert (H3 : lookup Party.id (db_parties d) (Contract.party ex_contract) = Ok ex_party)
    by reflexivity.
  split; [exact H1|]. split; [exact H2|]. split; [exact H3|].
  exact (proj1 (get_invoice_line_account_errors ex_env d x _ _ _ H1 H2 H3)
           (Service.mk 2 ex_product_noacc) eq_refl eq_refl).
Defined.

Lemma get_invoice_line_fields_witness :
  let x := hd (Consumption.mk 0 0 None 0 0 0 0 0) ex_history in
  let l := match get_invoice_line ex_env (ex_db ex_contract [] []) x with
           | Ok l => l | Err _ => ex_invoice_line7 end in
  get_invoice_line ex_env (ex_db ex_contract [] []) x = Ok l
  /\ InvoiceLine.account l = 5%nat
  /\ exists cl ct pt,
  lookup ContractLine.id (db_lines (ex_db ex_contract [] [])) (Consumption.contract_line x) = Ok cl
  /\ lookup Contract.id (db_contracts (ex_db ex_contract [] [])) (ContractLine.contract cl) = Ok ct
  /\ lookup Party.id (db_parties (ex_db ex_contract [] [])) (Contract.party ct) = Ok pt
  /\ InvoiceLine.invoice_type l = Out_invoice /\ InvoiceLine.type l = "line"%string
  /\ InvoiceLine.origin l = Consumption.contract_line x
  /\ InvoiceLine.unit_price l = ContractLine.unit_price cl
  /\ InvoiceLine.party l = Contract.party ct
  /\ InvoiceLine.company l = Contract.company ct
  /\ InvoiceLine.currency l = Contract.currency ct
  /\ match ContractLine.service cl with
     | Some s =>
         InvoiceLine.product l = Some (Product.id (Service.product s))
         /\ InvoiceLine.unit l = Some (Product.default_uom (Service.product s))
         /\ InvoiceLine.taxes l = taxes_of pt (Service.product s)
         /\ Product.account_revenue_used (Service.product s) = Some (InvoiceLine.account l)
     | None =>
         InvoiceLine.product l = None /\ InvoiceLine.unit l = None
         /\ InvoiceLine.taxes l = []
         /\ (property_account_revenue ex_env "product.template" = Some (InvoiceLine.account l)
             \/ property_account_revenue ex_env "product.template" = None
                /\ property_account_revenue ex_env "product.category"
                   = Some (InvoiceLine.account l))
     end.
Proof.
  intros x l. assert (H : get_invoice_line ex_env (ex_db ex_contract [] []) x = Ok l)
    by (vm_compute; reflexivity).
  split; [exact H|]. split; [vm_compute; reflexivity|].
  exact (get_invoice_line_fields ex_env (ex_db ex_contract [] []) x l H).
Defined.

Lemma get_invoice_line_quantity_witness :
  let x := hd (Consumption.mk 0 0 None 0 0 0 0 0) ex_history in
  let l := match get_invoice_line ex_env (ex_db ex_contract [] []) x with
           | Ok l => l | Err _ => ex_invoice_line7 end in
  get_invoice_line ex_env (ex_db ex_contract [] []) x = Ok l
  /\ InvoiceLine.quantity l = 1%Q
  /\ Consumption.end_period_date x <> Consumption.init_period_date x
  /\ exists q,
       (q == inject_Z (Consumption.end_date x - Consumption.start_date x)
             / inject_Z (Consumption.end_period_date x - Consumption.init_period_date x))%Q
       /\ InvoiceLine.quantity l
          = uom_round ex_env q (match InvoiceLine.unit l with
                                | Some u => Uom.rounding u
                                | None => 1%Q
                                end).
Proof.
  intros x l. assert (H : get_invoice_line ex_env (ex_db ex_contract [] []) x = Ok l)
    by (vm_compute; reflexivity).
  split; [exact H|]. split; [vm_compute; reflexivity|].
  exact (get_invoice_line_quantity ex_env (ex_db ex_contract [] []) x l H).
Defined.

Lemma on_change_service_drops_price_witness :
  ~ (10 == 0)%Q
  /\ LineChanges.unit_price
       (on_change_service (Some (ServiceForm.mk "Support"%string 25 "Support plan"%string))
          (Some 10%Q) None) = None.
Proof.
  assert (H : ~ (10 == 0)%Q) by (intros H; discriminate H).
  split; [exact H | exact (on_change_service_drops_price _ _ None H)].
Defined.

(** Contracts 1 and 2 get the numbers 0 and 1; contract 3 keeps "C7". *)
Lemma set_reference_assigns_witness :
  let cs := [ex_contract; ex_contract_ref; ex_contract_draft] in
  let out := set_reference ex_seq_fmt 0 cs cs in
  NoDup (map Contract.id cs)
  /\ set_reference ex_seq_fmt 0 cs cs = (fst out, snd out)
  /\ map Contract.reference (snd out)
     = [Some "0"%string; Some "C7"%string; Some "1"%string]
  /\ exists assign : nat -> option nat,
    snd out = map (fun r => match assign (Contract.id r) with
                            | Some k => set_contract_reference r (Some (ex_seq_fmt k))
                            | None => r
                            end) cs
    /\ (forall i, assign i <> None <->
          exists c, In c cs /\ Contract.id c = i /\ reference_truthy c = false)
    /\ (forall i k, assign i = Some k -> (0 <= k < fst out)%nat)
    /\ (forall i j k, assign i = Some k -> assign j = Some k -> i = j)
    /\ fst out = (0 + List.length (filter (fun c => negb (reference_truthy c)) cs))%nat.
Proof.
  intros cs out.
  assert (Hnd : NoDup (map Contract.id cs)).
  { repeat constructor; simpl; intuition discriminate. }
  assert (H : set_reference ex_seq_fmt 0 cs cs = (fst out, snd out)) by reflexivity.
  split; [exact Hnd|]. split; [exact H|]. split; [vm_compute; reflexivity|].
  exact (set_reference_assigns ex_seq_fmt 0 cs cs (fst out) (snd out) Hnd H).
Defined.

(** The draft contract is skipped: both consumptions are of line 1. *)
Lemma do_create_consumptions_validated_witness :
  let out := match do_create_consumptions 0 [ex_contract; ex_contract_draft] []
                     (Some (ymd2ord 2020 3 31)) with
             | Ok p => p | Err _ => ([], []) end in
  do_create_consumptions 0 [ex_contract; ex_contract_draft] [] (Some (ymd2ord 2020 3 31))
    = Ok (fst out, snd out)
  /\ snd out = [1%nat; 2%nat]
  /\ Forall (fun i => exists x, In x (fst out) /\ Consumption.id x = i
    /\ (exists c, In c [ex_contract; ex_contract_draft] /\ Contract.state c = Validated
                  /\ In (Consumption.contract_line x) (Contract.lines c))
    /\ Consumption.invoice_line x = None
    /\ Consumption.end_date x < ymd2ord 2020 3 31) (snd out).
Proof.
  intros out.
  assert (H : do_create_consumptions 0 [ex_contract; ex_contract_draft] []
                (Some (ymd2ord 2020 3 31)) = Ok (fst out, snd out))
    by (vm_compute; reflexivity).
  split; [exact H|]. split; [vm_compute; reflexivity|].
  exact (do_create_consumptions_validated 0 _ [] _ (fst out) (snd out) H).
Defined.

Lemma invoice_links_consumptions_witness :
  let d := ex_db ex_contract ex_two [] in
  let out := match invoice ex_env d [1%nat; 2%nat] with
             | Ok p => p | Err _ => (d, []) end in
  NoDup [1%nat; 2%nat]
  /\ invoice ex_env d [1%nat; 2%nat] = Ok (fst out, snd out)
  /\ map Consumption.invoice_line (db_consumptions (fst out)) = [Some 1%nat; Some 2%nat]
  /\ Forall (fun i => exists c l v,
      lookup Consumption.id (db_consumptions d) i = Ok c
      /\ lookup Consumption.id (db_consumptions (fst out)) i
         = Ok (set_consumption_invoice_line c (Some (InvoiceLine.id l)))
      /\ In l (db_invoice_lines (fst out))
      /\ ~ In (InvoiceLine.id l) (map InvoiceLine.id (db_invoice_lines d))
      /\ In v (snd out) /\ In (InvoiceLine.id l) (Invoice.lines v)
      /\ InvoiceLine.invoice l = Some (Invoice.id v)) [1%nat; 2%nat]
  /\ (forall c, In c (db_consumptions d) -> ~ In (Consumption.id c) [1%nat; 2%nat] ->
        In c (db_consumptions (fst out))).
Proof.
  intros d out.
  assert (Hnd : NoDup [1%nat; 2%nat]) by (repeat constructor; simpl; intuition discriminate).
  assert (H : invoice ex_env d [1%nat; 2%nat] = Ok (fst out, snd out))
    by (vm_compute; reflexivity).
  split; [exact Hnd|]. split; [exact H|]. split; [vm_compute; reflexivity|].
  exact (invoice_links_consumptions ex_env d _ (fst out) (snd out) Hnd H).
Defined.
